(** * molly-way: the bridge front-end's persistence reconciler, quote
      service and swap guard, embedded from the TypeScript sources.

    - [Js]          values and numbers of the host language;
    - [Reconciler]  src/components/bridge/CompletedTransactionSaver.tsx;
    - [BridgeService] src/hooks/useBridgeService.ts ([calculatePrice]);
    - [BridgeForm]  the bridge form ([handleSwapCurrencies]). *)

From Stdlib Require Import String Ascii List ZArith Bool Arith Lia.
From Stdlib Require Import DecimalString.
Import ListNotations.
Open Scope string_scope.
Open Scope list_scope.

(* ===================================================================== *)
(** ** Host-language values *)
(* ===================================================================== *)

Module Js.

(** JavaScript numbers are IEEE doubles.  The sources only parse them,
    compare them with zero, multiply, divide and print them, so the double
    arithmetic is an interface: every definition below is generic in it. *)
Class JsNumber (number : Type) : Type := {
  parseFloat : string -> number;          (* parseFloat(s), NaN included   *)
  num_of_Z : Z -> number;                 (* an integer literal            *)
  num_add : number -> number -> number;
  num_mul : number -> number -> number;
  num_div : number -> number -> number;
  num_le : number -> number -> bool;      (* x <= y, false when NaN        *)
  num_eqb : number -> number -> bool;     (* x === y                       *)
  num_truthy : number -> bool;            (* false for 0, -0 and NaN       *)
  toFixed : number -> nat -> string;      (* x.toFixed(d)                  *)
  num_toString : number -> string         (* x.toString()                  *)
}.

#[local] Set Warnings "-register-all".

(** A value of type [any]: [JsNull] stands for both [null] and
    [undefined], which the sources never tell apart. *)
Inductive JsValue (number : Type) : Type :=
| JsNull
| JsBool (b : bool)
| JsNum (n : number)
| JsStr (s : string)
| JsArr (items : list (JsValue number))
| JsObj (fields : list (string * JsValue number)).

Arguments JsNull {number}.
Arguments JsBool {number} b.
Arguments JsNum {number} n.
Arguments JsStr {number} s.
Arguments JsArr {number} items.
Arguments JsObj {number} fields.

Section Values.
Context {number : Type} `{JsNumber number}.

(** ToBoolean: what [!v], [v || w] and [if (v)] look at. *)
Definition truthy (v : JsValue number) : bool :=
  match v with
  | JsNull => false
  | JsBool b => b
  | JsNum n => num_truthy n
  | JsStr s => negb (s =? EmptyString)
  | JsArr _ => true
  | JsObj _ => true
  end.

(** [v || w] *)
Definition js_or (v w : JsValue number) : JsValue number :=
  if truthy v then v else w.

Fixpoint assoc (k : string) (fields : list (string * JsValue number))
  : JsValue number :=
  match fields with
  | [] => JsNull
  | (k', v) :: rest => if k' =? k then v else assoc k rest
  end.

(** [v?.k]: a property of an object, [undefined] on anything else the
    sources can hold in an [any]. *)
Definition get_prop (v : JsValue number) (k : string) : JsValue number :=
  match v with
  | JsObj fields => assoc k fields
  | _ => JsNull
  end.

(** [v === 'lit'] *)
Definition is_str (v : JsValue number) (lit : string) : bool :=
  match v with
  | JsStr s => s =? lit
  | _ => false
  end.

End Values.

(** [!s] for a string: only the empty string is falsy. *)
Definition str_truthy (s : string) : bool := negb (s =? EmptyString).

(** [s || d] for a nullable string. *)
Definition str_or (s : option string) (d : string) : string :=
  match s with
  | Some v => if str_truthy v then v else d
  | None => d
  end.

(** [hay.includes(needle)] *)
Definition includes (hay needle : string) : bool :=
  match String.index 0 needle hay with
  | Some _ => true
  | None => false
  end.

End Js.

Import Js.

(* ===================================================================== *)
(** ** Transaction persistence reconciler
       (src/components/bridge/CompletedTransactionSaver.tsx) *)
(* ===================================================================== *)

Module Reconciler.

(** *** Data that holds no number *)

(** The error object of a store reply; only [message] is read. *)
Record StoreError : Type := mkStoreError { message : option string }.

(** What a [throw] can carry here. *)
Inductive Exn : Type :=
| ThrownStoreError (e : StoreError)
| ThrownError (msg : string).

Definition dquote : string := String (ascii_of_nat 34) EmptyString.

(** Postgres error 23505 as the client reports it. *)
Definition unique_violation : StoreError :=
  {| message := Some
       ("duplicate key value violates unique constraint " ++ dquote
        ++ "bridge_transactions_ff_order_id_key" ++ dquote)%string |}.

(** The browser objects read for the metadata snapshot, and the clock. *)
Record ClientEnv : Type := mkClientEnv {
  userAgent : string;
  languages : option (list string);
  language : string;
  innerWidth : Z;
  innerHeight : Z;
  platform : string;
  vendor : string;
  now_iso : string              (* new Date().toISOString() *)
}.

(** How a store request of this call goes wrong, if it does: the reply
    carries an error object, or the promise is rejected. *)
Inductive Fault : Type :=
| NoFault
| ErrorReply (e : StoreError)
| Rejected (x : Exn).

(** [{ data, error }] *)
Record Reply (D : Type) : Type := mkReply {
  data : option D;
  error : option StoreError
}.
Arguments mkReply {D} data error.
Arguments data {D} r.
Arguments error {D} r.

Inductive Completion (A : Type) : Type :=
| Returned (a : A)
| Threw (x : Exn).
Arguments Returned {A} a.
Arguments Threw {A} x.

Section Model.
Context {number : Type} `{JsNumber number}.

(** *** Data *)

(** [OrderDetails] (declared in hooks/useBridgeOrder): the fields the
    component reads. *)
Record OrderDetails : Type := mkOrderDetails {
  orderId : string;
  fromCurrency : string;
  toCurrency : string;
  depositAmount : string;
  destinationAddress : string;
  depositAddress : string;
  ffOrderToken : string;
  expiresAt : option string;
  currentStatus : string;
  rawApiResponse : JsValue number
}.

(** [{ ...orderDetails, currentStatus: st, rawApiResponse: raw }] *)
Definition spread_status_raw (o : OrderDetails) (st : string)
  (raw : JsValue number) : OrderDetails :=
  {| orderId := orderId o;
     fromCurrency := fromCurrency o;
     toCurrency := toCurrency o;
     depositAmount := depositAmount o;
     destinationAddress := destinationAddress o;
     depositAddress := depositAddress o;
     ffOrderToken := ffOrderToken o;
     expiresAt := expiresAt o;
     currentStatus := st;
     rawApiResponse := raw |}.

(** The object handed to [insert] on table [bridge_transactions]. *)
Record Transaction : Type := mkTransaction {
  ff_order_id : string;
  ff_order_token : string;
  from_currency : string;
  to_currency : string;
  amount : number;
  destination_address : string;
  status : string;
  deposit_address : string;
  client_metadata : JsValue number;
  initial_rate : number;
  expiration_time : string;
  raw_api_response : JsValue number
}.

(** [update({ status: st, raw_api_response: raw })] on one row. *)
Definition patch_status_raw (t : Transaction) (st : string)
  (raw : JsValue number) : Transaction :=
  {| ff_order_id := ff_order_id t;
     ff_order_token := ff_order_token t;
     from_currency := from_currency t;
     to_currency := to_currency t;
     amount := amount t;
     destination_address := destination_address t;
     status := st;
     deposit_address := deposit_address t;
     client_metadata := client_metadata t;
     initial_rate := initial_rate t;
     expiration_time := expiration_time t;
     raw_api_response := raw |}.

(** A stored row: the store-assigned [id] and the columns. *)
Record Row : Type := mkRow { id : nat; columns : Transaction }.

Definition Store : Type := list Row.

(** *** The store ([supabase.from('bridge_transactions')])

    The store is an external collaborator (a hosted Postgres table), not
    code of the repository.  Its rows are kept in insertion order;
    [ff_order_id] carries a uniqueness constraint, so an insert whose key
    is present is answered with the duplicate-key error.  A sequential
    save never meets that answer from the store itself, since it inserts
    only after an empty select; it can meet it when another session wrote
    in between, which a [Fault] of the insert stands for. *)

Definition has_key (key : string) (r : Row) : bool :=
  ff_order_id (columns r) =? key.

(** [.select(..).eq('ff_order_id', key).limit(1)] *)
Definition db_select (key : string) (s : Store) : list Row :=
  firstn 1 (filter (has_key key) s).

(** [.update(patch).eq('ff_order_id', key)] *)
Definition db_update (key st : string) (raw : JsValue number) (s : Store)
  : Store :=
  map (fun r => if has_key key r
                then {| id := id r;
                        columns := patch_status_raw (columns r) st raw |}
                else r) s.

Definition fresh_id (s : Store) : nat := S (list_max (map id s)).

(** [.insert(t)]: the new store and row, or the constraint error. *)
Definition db_insert (t : Transaction) (s : Store)
  : StoreError + (Store * Row) :=
  if existsb (has_key (ff_order_id t)) s then inl unique_violation
  else
    let r := {| id := fresh_id s; columns := t |} in
    inr ((s ++ [r])%list, r).

(** The number of rows stored under a key. *)
Definition count_key (key : string) (s : Store) : nat :=
  length (filter (has_key key) s).

(** *** Effects *)

Inductive LogLevel : Type := LDebug | LInfo | LWarn | LError.

(** A request sent to the store. *)
Inductive StoreCall : Type :=
| SelectId (key : string)
| SelectAll (key : string)
| Update (key st : string) (raw : JsValue number)
| Insert (t : Transaction).

Inductive Action : Type :=
| Log (lvl : LogLevel) (msg : string)
| Toast (title description : string)
| SetTransactionSaved (saved : bool)
| SetCheckingDb (checking : bool)
| OnOrderDetailsUpdate (updated : OrderDetails)
| Call (c : StoreCall).

(** What happens during a run, in order: an action of the component, a
    callback it registers with [setTimeout], an error reply it receives. *)
Inductive Event : Type :=
| Do (a : Action)
| SetTimeout (ms : nat) (callback : list Action)
| Failed (c : StoreCall) (e : StoreError).     (* the reply had an error *)

Record World : Type := mkWorld { db : Store; trace : list Event }.

(** An asynchronous computation: it changes the world and returns or
    throws; what it did before a throw stays done. *)
Definition Eff (A : Type) : Type := World -> Completion A * World.

Definition ret {A} (a : A) : Eff A := fun w => (Returned a, w).

Definition bind {A B} (m : Eff A) (k : A -> Eff B) : Eff B :=
  fun w => match m w with
           | (Returned a, w') => k a w'
           | (Threw x, w') => (Threw x, w')
           end.

Definition throw {A} (x : Exn) : Eff A := fun w => (Threw x, w).

Definition try_catch {A} (body : Eff A) (handler : Exn -> Eff A) : Eff A :=
  fun w => match body w with
           | (Returned a, w') => (Returned a, w')
           | (Threw x, w') => handler x w'
           end.

Definition emit (e : Event) : Eff unit :=
  fun w => (Returned tt, {| db := db w; trace := (trace w ++ [e])%list |}).

Definition act (a : Action) : Eff unit := emit (Do a).
Definition log (lvl : LogLevel) (msg : string) : Eff unit := act (Log lvl msg).
Definition toast (title description : string) : Eff unit :=
  act (Toast title description).
Definition setTimeout (callback : list Action) (ms : nat) : Eff unit :=
  emit (SetTimeout ms callback).

Notation "x <- m ;; k" := (bind m (fun x => k))
  (at level 61, m at next level, right associativity).
Notation "m ;; k" := (bind m (fun _ => k))
  (at level 61, right associativity).

(** One request to the store: it is recorded, then it fails as [f] says
    or the store serves it; an error object in the reply is recorded too. *)
Definition request {D} (c : StoreCall) (f : Fault)
  (serve : Store -> Store * Reply D) : Eff (Reply D) :=
  fun w =>
    let sent := (trace w ++ [Do (Call c)])%list in
    match f with
    | Rejected x => (Threw x, {| db := db w; trace := sent |})
    | _ =>
        let (s', r) :=
          match f with
          | ErrorReply e => (db w, {| data := None; error := Some e |})
          | _ => serve (db w)
          end in
        (Returned r,
         {| db := s';
            trace := match error r with
                     | Some e => (sent ++ [Failed c e])%list
                     | None => sent
                     end |})
    end.

(** [.select('id').eq('ff_order_id', key).limit(1)] *)
Definition select_id (key : string) (f : Fault) : Eff (Reply (list nat)) :=
  request (SelectId key) f
    (fun s =>
       (s, {| data := Some (map id (db_select key s)); error := None |})).

(** [.select('*').eq('ff_order_id', key).limit(1)] *)
Definition select_all (key : string) (f : Fault) : Eff (Reply (list Row)) :=
  request (SelectAll key) f
    (fun s => (s, {| data := Some (db_select key s); error := None |})).

(** [.update({status, raw_api_response}).eq('ff_order_id', key)] *)
Definition update (key st : string) (raw : JsValue number) (f : Fault)
  : Eff (Reply unit) :=
  request (Update key st raw) f
    (fun s => (db_update key st raw s, {| data := None; error := None |})).

(** [.insert(t).select('id')] *)
Definition insert (t : Transaction) (f : Fault) : Eff (Reply (list nat)) :=
  request (Insert t) f
    (fun s => match db_insert t s with
              | inl e => (s, {| data := None; error := Some e |})
              | inr (s', r) => (s', {| data := Some [id r]; error := None |})
              end).

(** *** The component *)

Record Props : Type := mkProps {
  orderDetails : option OrderDetails;
  simulateSuccess : bool;
  token : string;
  transactionSaved : bool;
  onOrderDetailsUpdate : bool;      (* is the callback there *)
  hasCheckedExpiredOrderRef : option string
}.

(** The faults of one run of [saveTransaction], one per request. *)
Record SaveFaults : Type := mkSaveFaults {
  on_select : Fault;
  on_update : Fault;
  on_insert : Fault
}.

(** [error.message?.includes('duplicate key') ||
     error.message?.includes('unique constraint')] *)
Definition is_duplicate (e : StoreError) : bool :=
  match message e with
  | Some m => includes m "duplicate key" || includes m "unique constraint"
  | None => false
  end.

(** The metadata snapshot, lines 114-125. *)
Definition clientMetadata (env : ClientEnv) (simulate : bool)
  : JsValue number :=
  JsObj
    [ ("ip", JsStr "client-side");
      ("user_agent", JsStr (userAgent env));
      ("languages",
        JsArr (map JsStr (match languages env with
                          | Some ls => ls
                          | None => [language env]
                          end)));
      ("device",
        JsObj [ ("width", JsNum (num_of_Z (innerWidth env)));
                ("height", JsNum (num_of_Z (innerHeight env)));
                ("platform", JsStr (platform env));
                ("vendor", JsStr (vendor env)) ]);
      ("simulation", JsBool simulate) ].

(** The object inserted, lines 132-145. *)
Definition new_transaction (o : OrderDetails) (env : ClientEnv)
  (simulate : bool) : Transaction :=
  {| ff_order_id := orderId o;
     ff_order_token := ffOrderToken o;
     from_currency := fromCurrency o;
     to_currency := toCurrency o;
     amount := parseFloat (depositAmount o);
     destination_address := destinationAddress o;
     status := "completed";
     deposit_address := depositAddress o;
     client_metadata := clientMetadata env simulate;
     initial_rate := num_of_Z 0;
     expiration_time := str_or (expiresAt o) (now_iso env);
     raw_api_response := rawApiResponse o |}.

(** [saveTransaction], lines 68-176. *)
Definition saveTransaction (o : OrderDetails) (simulate : bool)
  (env : ClientEnv) (f : SaveFaults) : Eff unit :=
  try_catch
    (log LInfo "Attempting to save completed transaction to database" ;;
     existing <- select_id (orderId o) (on_select f) ;;
     match error existing with
     | Some selectError =>
         log LError "Error checking for existing transaction:" ;;
         toast "Database Error" "Failed to check for existing transaction"
     | None =>
         match data existing with
         | Some (_ :: _) =>
             log LInfo "Transaction already exists in database, updating saved state" ;;
             (if truthy (rawApiResponse o) then
                updated <- update (orderId o) "completed" (rawApiResponse o)
                             (on_update f) ;;
                match error updated with
                | Some updateError =>
                    log LError "Error updating transaction with API response:"
                | None =>
                    log LInfo "Updated existing transaction with API response data"
                end
              else ret tt) ;;
             act (SetTransactionSaved true)
         | _ =>
             try_catch
               (inserted <- insert (new_transaction o env simulate)
                              (on_insert f) ;;
                match error inserted with
                | Some e =>
                    if is_duplicate e then
                      log LInfo "Transaction already exists in database (constraint violation)" ;;
                      act (SetTransactionSaved true)
                    else throw (ThrownStoreError e)
                | None =>
                    log LInfo "Transaction saved successfully:" ;;
                    act (SetTransactionSaved true)
                end)
               (fun dbError =>
                  log LError "Database error saving transaction:" ;;
                  toast "Database Error" "Failed to save transaction")
         end
     end)
    (fun e =>
       log LError "Error saving transaction:" ;;
       toast "Unexpected Error"
         "An unexpected error occurred while saving the transaction").

(** The first effect of the component, lines 37-184: the preconditions,
    then [saveTransaction()]. *)
Definition saveEffect (p : Props) (env : ClientEnv) (f : SaveFaults)
  : Eff unit :=
  if simulateSuccess p then
    log LDebug "Skipping transaction save due to simulateSuccess flag"
  else if transactionSaved p then
    log LDebug "Transaction already saved, skipping save operation"
  else
    match orderDetails p with
    | None =>
        log LWarn "Cannot save transaction: missing order details or order ID"
    | Some o =>
        if negb (str_truthy (orderId o)) then
          log LWarn "Cannot save transaction: missing order details or order ID"
        else if negb (currentStatus o =? "completed") then
          log LDebug ("Transaction status is " ++ currentStatus o
                      ++ ", skipping save operation")%string
        else if negb (truthy (rawApiResponse o)) then
          log LDebug "Skipping transaction save: no raw API response available"
        else saveTransaction o (simulateSuccess p) env f
    end.

(** How the store query of the recovery check behaves on the wire: when
    it settles (never, or after so many milliseconds), how it fails, and
    which callback runs first if it settles in the very millisecond the
    timer fires. *)
Record Network : Type := mkNetwork {
  settles_after : option nat;
  query_first_on_tie : bool;
  query_fault : Fault
}.

Definition timeout_ms : nat := 2000.

(** Does the query settle before the timer rejects? *)
Definition query_wins (n : Network) : bool :=
  match settles_after n with
  | Some ms =>
      (ms <? timeout_ms)%nat || ((ms =? timeout_ms)%nat && query_first_on_tie n)
  | None => false
  end.

(** [Promise.race([queryPromise, timeoutPromise])], lines 213-228: the
    query is sent either way; its outcome counts only if it comes first. *)
Definition race_query (key : string) (n : Network) : Eff (Reply (list Row)) :=
  if query_wins n then select_all key (query_fault n)
  else
    act (Call (SelectAll key)) ;;
    throw (ThrownError "Database query timeout").

(** [handleExpiredStatus], lines 200-289. *)
Definition handleExpiredStatus (p : Props) (n : Network) : Eff bool :=
  log LInfo "Handling expired status" ;;
  match orderDetails p with
  | Some o =>
      if negb (str_truthy (orderId o)) || negb (str_truthy (token p)) then
        log LError "Cannot handle expired status: missing order details or token" ;;
        act (SetCheckingDb false) ;;
        ret false
      else
        try_catch
          (log LDebug "Checking if transaction exists in database" ;;
           reply <- race_query (orderId o) n ;;
           match error reply with
           | Some e =>
               log LError "Error checking for transaction:" ;;
               toast "Database Error" "Failed to check for transaction status" ;;
               act (SetCheckingDb false) ;;
               ret false
           | None =>
               match data reply with
               | Some (dbTransaction :: _) =>
                   log LDebug "Transaction found in database:" ;;
                   (if onOrderDetailsUpdate p then
                      log LInfo "Updating order details with data from database" ;;
                      let updatedDetails :=
                        spread_status_raw o "completed"
                          (js_or (raw_api_response (columns dbTransaction))
                                 (rawApiResponse o)) in
                      setTimeout [OnOrderDetailsUpdate updatedDetails;
                                  SetCheckingDb false] 200
                    else act (SetCheckingDb false)) ;;
                   ret true
               | _ =>
                   log LDebug "Transaction not found in database, maintaining expired status" ;;
                   setTimeout [SetCheckingDb false] 200 ;;
                   ret false
               end
           end)
          (fun e =>
             log LError "Error in handleExpiredStatus:" ;;
             toast "Error" "Failed to check transaction status" ;;
             act (SetCheckingDb false) ;;
             ret false)
  | None =>
      log LError "Cannot handle expired status: missing order details or token" ;;
      act (SetCheckingDb false) ;;
      ret false
  end.

(** [shouldCheckExpiredStatus], lines 188-191. *)
Definition shouldCheckExpiredStatus (p : Props) : bool :=
  match orderDetails p with
  | Some o =>
      ((currentStatus o =? "expired")
       || is_str (get_prop (rawApiResponse o) "status") "EXPIRED")
      && negb (match hasCheckedExpiredOrderRef p with
               | Some checked => checked =? orderId o
               | None => false
               end)
  | None => false
  end.

(** The second effect of the component, lines 186-197: [None] when the
    check is not entered, else what [handleExpiredStatus] returned. *)
Definition expiredEffect (p : Props) (n : Network) : Eff (option bool) :=
  if shouldCheckExpiredStatus p then
    log LDebug "Handling expired order check for" ;;
    recovered <- handleExpiredStatus p n ;;
    ret (Some recovered)
  else ret None.

(** *** Observations on a trace *)

(** The actions done before the function returned. *)
Fixpoint immediate (t : list Event) : list Action :=
  match t with
  | [] => []
  | Do a :: rest => a :: immediate rest
  | _ :: rest => immediate rest
  end.

(** The actions of the registered timers, in the order they fire. *)
Fixpoint deferred (t : list Event) : list Action :=
  match t with
  | [] => []
  | SetTimeout _ callback :: rest => (callback ++ deferred rest)%list
  | _ :: rest => deferred rest
  end.

(** The error replies received from the store, with their requests. *)
Fixpoint store_errors (t : list Event) : list (StoreCall * StoreError) :=
  match t with
  | [] => []
  | Failed c e :: rest => (c, e) :: store_errors rest
  | _ :: rest => store_errors rest
  end.

(** Everything that happens, once the timers have fired. *)
Definition eventually (t : list Event) : list Action :=
  (immediate t ++ deferred t)%list.

Definition is_store_call (a : Action) : bool :=
  match a with Call _ => true | _ => false end.
Definition is_insert (a : Action) : bool :=
  match a with Call (Insert _) => true | _ => false end.
Definition is_toast (a : Action) : bool :=
  match a with Toast _ _ => true | _ => false end.
Definition is_saved_flag (a : Action) : bool :=
  match a with SetTransactionSaved _ => true | _ => false end.
Definition is_checking_flag (a : Action) : bool :=
  match a with SetCheckingDb _ => true | _ => false end.
Definition is_order_update (a : Action) : bool :=
  match a with OnOrderDetailsUpdate _ => true | _ => false end.

(** What the user and the parent component see of a run: everything but
    the log lines. *)
Definition is_visible (a : Action) : bool :=
  match a with Log _ _ => false | _ => true end.

Definition store_calls (t : list Event) : list Action :=
  filter is_store_call (eventually t).
Definition toasts (t : list Event) : list Action :=
  filter is_toast (eventually t).
Definition saved_flags (t : list Event) : list Action :=
  filter is_saved_flag (eventually t).
Definition checking_flags (t : list Event) : list Action :=
  filter is_checking_flag (eventually t).
Definition order_updates (t : list Event) : list Action :=
  filter is_order_update (eventually t).
Definition visible (t : list Event) : list Action :=
  filter is_visible (eventually t).

(** A run from a store, with an empty trace. *)
Definition run {A} (m : Eff A) (s : Store) : Completion A * World :=
  m {| db := s; trace := [] |}.

(** *** Vocabulary of the properties *)

(** The five preconditions of the save all hold, for order [o]. *)
Definition qualifies (p : Props) (o : OrderDetails) : Prop :=
  simulateSuccess p = false /\
  transactionSaved p = false /\
  orderDetails p = Some o /\
  orderId o <> EmptyString /\
  currentStatus o = "completed" /\
  truthy (rawApiResponse o) = true.

(** One of the preconditions of the save fails. *)
Definition save_blocked (p : Props) : Prop :=
  simulateSuccess p = true \/
  transactionSaved p = true \/
  orderDetails p = None \/
  exists o, orderDetails p = Some o /\
    (orderId o = EmptyString \/
     currentStatus o <> "completed" \/
     truthy (rawApiResponse o) = false).

Definition no_faults : SaveFaults :=
  {| on_select := NoFault; on_update := NoFault; on_insert := NoFault |}.

(** The error policy of the save as the specification words it: a run
    that meets a store error notifies the user and leaves the saved flag
    unset. *)
Definition claimed_save_error_policy (p : Props) (env : ClientEnv)
  (f : SaveFaults) (s : Store) : Prop :=
  let w := snd (run (saveEffect p env f) s) in
  store_errors (trace w) <> [] ->
  toasts (trace w) <> [] /\ saved_flags (trace w) = [].
(** How a save ends, by the one error reply it can meet. *)
Inductive SaveOutcome (o : OrderDetails) (t : list Event) : Prop :=
| NoErrorReply :
    store_errors t = [] -> SaveOutcome o t
| SelectFailed e :
    store_errors t = [(SelectId (orderId o), e)] ->
    toasts t = [Toast "Database Error" "Failed to check for existing transaction"] ->
    saved_flags t = [] -> SaveOutcome o t
| UpdateFailed e :
    store_errors t
      = [(Update (orderId o) "completed" (rawApiResponse o), e)] ->
    toasts t = [] ->
    saved_flags t = [SetTransactionSaved true] -> SaveOutcome o t
| InsertDuplicate c e :
    store_errors t = [(Insert c, e)] -> is_duplicate e = true ->
    toasts t = [] ->
    saved_flags t = [SetTransactionSaved true] -> SaveOutcome o t
| InsertFailed c e :
    store_errors t = [(Insert c, e)] -> is_duplicate e = false ->
    toasts t = [Toast "Database Error" "Failed to save transaction"] ->
    saved_flags t = [] -> SaveOutcome o t.

(** The payload of a recovered order as the specification words it: the
    persisted [raw_api_response], or the order's own when the persisted
    one is absent. *)
Definition persisted_or_existing (persisted existing : JsValue number)
  : JsValue number :=
  match persisted with
  | JsNull => existing
  | _ => persisted
  end.

(** The recovery on a found record as the specification words it. *)
Definition claimed_recovery (p : Props) (n : Network) (s : Store) : Prop :=
  forall o r,
    orderDetails p = Some o -> db_select (orderId o) s = [r] ->
    order_updates (trace (snd (run (handleExpiredStatus p n) s)))
    = [OnOrderDetailsUpdate
         (spread_status_raw o "completed"
            (persisted_or_existing (raw_api_response (columns r))
               (rawApiResponse o)))].

(** What a run of the check that times out leaves behind. *)
Definition timeout_trace (key : string) : list Event :=
  [ Do (Log LInfo "Handling expired status");
    Do (Log LDebug "Checking if transaction exists in database");
    Do (Call (SelectAll key));
    Do (Log LError "Error in handleExpiredStatus:");
    Do (Toast "Error" "Failed to check transaction status");
    Do (SetCheckingDb false) ].

(** *** A session of the page *)

(** Modelled from the spec: the component only reads
    [hasCheckedExpiredOrderRef]; the page that owns the ref and writes it
    is not among the sources.  The specification calls it "a single
    last-checked-id marker": once a check is entered it holds the id of
    that order, and it holds nothing else. *)
Definition mark_checked (marker : option string) (o : OrderDetails)
  (entered : bool) : option string :=
  if entered then Some (orderId o) else marker.

(** One change of [orderDetails]: the order shown, and how the store
    query would go if the check were entered. *)
Record Render : Type := mkRender { shown : OrderDetails; wire : Network }.

Definition props_at (base : Props) (marker : option string) (o : OrderDetails)
  : Props :=
  {| orderDetails := Some o;
     simulateSuccess := simulateSuccess base;
     token := token base;
     transactionSaved := transactionSaved base;
     onOrderDetailsUpdate := onOrderDetailsUpdate base;
     hasCheckedExpiredOrderRef := marker |}.

(** The second effect run at each change of [orderDetails], the marker
    threaded through: the order ids whose check was entered, in order. *)
Fixpoint session (base : Props) (marker : option string) (s : Store)
  (renders : list Render) : list string :=
  match renders with
  | [] => []
  | r :: rest =>
      match fst (run (expiredEffect (props_at base marker (shown r)) (wire r))
                   s) with
      | Returned (Some _) =>
          orderId (shown r)
          :: session base (mark_checked marker (shown r) true) s rest
      | _ => session base (mark_checked marker (shown r) false) s rest
      end
  end.

(** No entry repeats the one before it. *)
Fixpoint no_immediate_repeat (previous : option string) (l : list string)
  : Prop :=
  match l with
  | [] => True
  | x :: rest => previous <> Some x /\ no_immediate_repeat (Some x) rest
  end.

(** Single entry per order id as the specification words it. *)
Definition claimed_single_entry (base : Props) (s : Store)
  (renders : list Render) : Prop :=
  forall id, count_occ string_dec (session base None s renders) id <= 1.

End Model.

End Reconciler.

(* ===================================================================== *)
(** ** Price quotation (src/hooks/useBridgeService.ts) *)
(* ===================================================================== *)

Module BridgeService.

(** ['fixed' | 'float'] *)
Inductive OrderType : Type := Fixed | Float.

Section Model.
Context {number : Type} `{JsNumber number}.

(** How [supabase.functions.invoke('bridge-price', { body })] settles:
    the promise is rejected, or it resolves to [{ data, error }], the
    error, if any, with its message. *)
Inductive Invoke : Type :=
| InvokeRejected
| InvokeResolved (data : JsValue number) (error : option string).

(** [fromCurrency === 'BTC' ? 65000 : 3000] *)
Definition mockRate (fromCurrency : string) : number :=
  if fromCurrency =? "BTC" then num_of_Z 65000 else num_of_Z 3000.

(** The synthetic quote of the [catch] branch, lines 207-241. *)
Definition mockResponse (fromCurrency toCurrency amount : string)
  (now : number) : JsValue number :=
  let mockRate := mockRate fromCurrency in
  let fromAmount := parseFloat amount in
  let toAmount :=
    if fromCurrency =? "BTC"
    then toFixed (num_mul fromAmount mockRate) 2
    else toFixed (num_div fromAmount mockRate) 8 in
  JsObj
    [ ("code", JsNum (num_of_Z 0));
      ("msg", JsStr "Success");
      ("data",
        JsObj
          [ ("from",
              JsObj
                [ ("amount", JsStr amount);
                  ("currency", JsStr fromCurrency);
                  ("max", JsStr "10");
                  ("min", JsStr "0.001");
                  ("network", JsStr "Network");
                  ("rate",
                    JsStr (num_toString
                             (if fromCurrency =? "BTC" then mockRate
                              else num_div (num_of_Z 1) mockRate)));
                  ("usd", JsNum (num_mul fromAmount mockRate));
                  ("btc",
                    JsNum (if fromCurrency =? "BTC" then fromAmount
                           else num_div fromAmount mockRate)) ]);
            ("to",
              JsObj
                [ ("amount", JsStr toAmount);
                  ("currency", JsStr toCurrency);
                  ("max", JsStr "1000000");
                  ("min", JsStr "0.01");
                  ("network", JsStr "Network");
                  ("rate",
                    JsStr (num_toString
                             (if fromCurrency =? "BTC"
                              then num_div (num_of_Z 1) mockRate
                              else mockRate)));
                  ("usd",
                    JsNum (num_mul (parseFloat toAmount)
                             (if toCurrency =? "BTC" then mockRate
                              else num_of_Z 1)));
                  ("btc",
                    JsNum (if toCurrency =? "BTC" then parseFloat toAmount
                           else num_div (parseFloat toAmount) mockRate)) ]);
            ("errors", JsArr []) ]);
      ("timestamp", JsNum (num_div now (num_of_Z 1000)));
      ("expiresAt",
        JsNum (num_add (num_div now (num_of_Z 1000)) (num_of_Z 60))) ].

(** The [try] block, lines 156-199: the quote of the backend, or [None]
    where the block throws. *)
Definition backend_quote (reply : Invoke) : option (JsValue number) :=
  match reply with
  | InvokeRejected => None
  | InvokeResolved data error =>
      match error with
      | Some _ => None                       (* throw: edge function error *)
      | None =>
          if negb (truthy data) then None    (* throw: no data returned   *)
          else
            match get_prop data "code" with
            | JsNum code =>
                if num_eqb code (num_of_Z 0) then
                  Some (JsObj [ ("code", get_prop data "code");
                                ("msg", get_prop data "msg");
                                ("data", get_prop data "data");
                                ("timestamp", get_prop data "timestamp");
                                ("expiresAt", get_prop data "expiresAt") ])
                else None                    (* throw: API error           *)
            | _ => None                      (* throw: API error           *)
            end
      end
  end.

(** What a call leaves: the value returned ([None] is [null]) and the
    [lastPriceCheck] state.  Console output is left out. *)
Record Priced : Type := mkPriced {
  returned : option (JsValue number);
  lastPriceCheck : option (JsValue number)
}.

(** [calculatePrice], lines 146-246.  [orderType] only travels in the
    request body. *)
Definition calculatePrice (fromCurrency toCurrency amount : string)
  (orderType : OrderType) (reply : Invoke) (now : number)
  (last : option (JsValue number)) : Priced :=
  if negb (str_truthy fromCurrency) || negb (str_truthy toCurrency)
     || negb (str_truthy amount)
     || num_le (parseFloat amount) (num_of_Z 0)
  then {| returned := None; lastPriceCheck := last |}
  else
    match backend_quote reply with
    | Some responseData =>
        {| returned := Some responseData; lastPriceCheck := Some responseData |}
    | None =>
        let mock := mockResponse fromCurrency toCurrency amount now in
        {| returned := Some mock; lastPriceCheck := Some mock |}
    end.

(** The input the guard of line 152 turns away. *)
Definition invalid_input (fromCurrency toCurrency amount : string) : Prop :=
  fromCurrency = EmptyString \/ toCurrency = EmptyString \/
  amount = EmptyString \/
  num_le (parseFloat amount) (num_of_Z 0) = true.

(** [data.code === 0] *)
Definition code_is_zero (data : JsValue number) : bool :=
  match get_prop data "code" with
  | JsNum code => num_eqb code (num_of_Z 0)
  | _ => false
  end.

(** The backend call fails, in the four ways the [try] block throws: the
    promise of [invoke] is rejected (line 168), the reply carries an
    error (lines 172-175), it carries no data (lines 177-180), or the
    code of its data is not the number 0 (lines 196-199). *)
Definition backend_fails (reply : Invoke) : Prop :=
  match reply with
  | InvokeRejected => True
  | InvokeResolved data error =>
      error <> None \/ truthy data = false \/ code_is_zero data = false
  end.

End Model.
End BridgeService.

(* ===================================================================== *)
(** ** The bridge form ([BridgeForm], [handleSwapCurrencies]) *)
(* ===================================================================== *)

Module BridgeForm.

(** A catalog entry, with the fields of [MOCK_CURRENCIES]. *)
Record Currency : Type := mkCurrency {
  symbol : string;
  name : string;
  image : string;
  network : string;
  available : bool;
  color : string;
  coin : string;
  code : string;
  send : Z;
  recv : Z
}.

(** The form state the handler reads and writes (from [useBridge()]). *)
Record Form : Type := mkForm {
  fromCurrency : string;
  toCurrency : string;
  amount : string
}.

(** [handleSwapCurrencies], lines 111-126. *)
Definition handleSwapCurrencies (availableCurrencies : list Currency)
  (st : Form) : Form :=
  let newFromCurrency :=
    find (fun c => (code c =? toCurrency st) && (send c =? 1)%Z)
      availableCurrencies in
  let newToCurrency :=
    find (fun c => (code c =? fromCurrency st) && (recv c =? 1)%Z)
      availableCurrencies in
  match newFromCurrency, newToCurrency with
  | Some _, Some _ =>
      {| fromCurrency := toCurrency st;      (* setFromCurrency(toCurrency) *)
         toCurrency := fromCurrency st;      (* setToCurrency(fromCurrency) *)
         amount := EmptyString |}            (* setAmount("")               *)
  | _, _ => st
  end.

(** The catalog lists [c] with send capability / with receive capability. *)
Definition can_send (catalog : list Currency) (c : string) : Prop :=
  exists e, In e catalog /\ code e = c /\ send e = 1%Z.
Definition can_receive (catalog : list Currency) (c : string) : Prop :=
  exists e, In e catalog /\ code e = c /\ recv e = 1%Z.

End BridgeForm.

(* ===================================================================== *)
(** ** A number interface to evaluate the model with

    Integers and NaN ([None]).  It agrees with the doubles on the strings
    and numbers the examples below use: an optional minus sign followed by
    decimal digits, and products and comparisons of such integers.  It is
    not a model of fractions or of division, and no generic statement
    depends on it. *)
(* ===================================================================== *)

Module IntNumber.

Definition digit_of (c : ascii) : option Z :=
  let n := nat_of_ascii c in
  if (48 <=? n)%nat && (n <=? 57)%nat then Some (Z.of_nat (n - 48)) else None.

Fixpoint digits (acc : option Z) (s : string) : option Z :=
  match s with
  | EmptyString => acc
  | String c rest =>
      match digit_of c with
      | Some d => digits (Some (match acc with
                                | Some a => 10 * a + d
                                | None => d
                                end)%Z) rest
      | None => acc
      end
  end.

(** An optional minus sign, then the leading digits; [None] is NaN. *)
Definition parse (s : string) : option Z :=
  match s with
  | String "-"%char rest => option_map Z.opp (digits None rest)
  | _ => digits None s
  end.

Definition lift2 (f : Z -> Z -> Z) (a b : option Z) : option Z :=
  match a, b with
  | Some x, Some y => Some (f x y)
  | _, _ => None
  end.

Definition show (a : option Z) : string :=
  match a with
  | Some z => NilZero.string_of_int (Z.to_int z)
  | None => "NaN"
  end.

Fixpoint zeros (d : nat) : string :=
  match d with
  | O => EmptyString
  | S d' => ("0" ++ zeros d')%string
  end.

Definition show_fixed (a : option Z) (d : nat) : string :=
  match a, d with
  | Some _, S _ => (show a ++ "." ++ zeros d)%string
  | _, _ => show a
  end.

#[export] Instance int_number : JsNumber (option Z) := {|
  parseFloat := parse;
  num_of_Z := Some;
  num_add := lift2 Z.add;
  num_mul := lift2 Z.mul;
  num_div := fun a b =>
    match b with Some 0%Z => None | _ => lift2 Z.div a b end;
  num_le := fun a b =>
    match a, b with Some x, Some y => (x <=? y)%Z | _, _ => false end;
  num_eqb := fun a b =>
    match a, b with Some x, Some y => (x =? y)%Z | _, _ => false end;
  num_truthy := fun a =>
    match a with Some x => negb (x =? 0)%Z | None => false end;
  toFixed := show_fixed;
  num_toString := show
|}.

End IntNumber.

(* ===================================================================== *)
(** ** Concrete inputs the properties are evaluated on *)
(* ===================================================================== *)

Module Samples.
Import Reconciler IntNumber.

Local Abbreviation OrderDetails := (@OrderDetails (option Z)).
Local Abbreviation Props := (@Props (option Z)).
Local Abbreviation Store := (@Store (option Z)).
Local Abbreviation Row := (@Row (option Z)).

Definition env : ClientEnv :=
  {| userAgent := "Mozilla/5.0"; languages := Some ["en-US"; "en"];
     language := "en-US"; innerWidth := 1280; innerHeight := 720;
     platform := "Linux x86_64"; vendor := "Google Inc.";
     now_iso := "2025-01-01T00:00:00.000Z" |}.

(** The completed order of the spec's first example. *)
Definition completed_order : OrderDetails :=
  {| orderId := "FF-ABC123"; fromCurrency := "BTC"; toCurrency := "ETH";
     depositAmount := "2"; destinationAddress := "0x742d35Cc";
     depositAddress := "bc1qxy2k"; ffOrderToken := "tok-1";
     expiresAt := Some "2025-01-01T00:30:00.000Z";
     currentStatus := "completed";
     rawApiResponse := JsObj [("status", JsStr "DONE")] |}.

Definition props_of (o : OrderDetails) : Props :=
  {| orderDetails := Some o; simulateSuccess := false; token := "tok-1";
     transactionSaved := false; onOrderDetailsUpdate := true;
     hasCheckedExpiredOrderRef := None |}.

Definition empty_store : Store := [].

(** The store after that order was saved once. *)
Definition store_with_order : Store :=
  db (snd (run (saveEffect (props_of completed_order) env no_faults) [])).

Definition connection_lost : StoreError :=
  {| message := Some "connection to server was lost" |}.

Definition insert_refused : SaveFaults :=
  {| on_select := NoFault; on_update := NoFault;
     on_insert := ErrorReply unique_violation |}.

Definition update_fails : SaveFaults :=
  {| on_select := NoFault; on_update := ErrorReply connection_lost;
     on_insert := NoFault |}.

(** The same order while the backend is still processing it. *)
Definition processing_order : OrderDetails :=
  spread_status_raw completed_order "processing" JsNull.

(** The same order once the client has seen it expire. *)
Definition expired_order : OrderDetails :=
  spread_status_raw completed_order "expired"
    (JsObj [("status", JsStr "EXPIRED")]).

(** Another expired order. *)
Definition other_expired_order : OrderDetails :=
  {| orderId := "FF-XYZ789"; fromCurrency := "ETH"; toCurrency := "SOL";
     depositAmount := "1"; destinationAddress := "So1ana";
     depositAddress := "0xdeposit"; ffOrderToken := "tok-2";
     expiresAt := None; currentStatus := "expired";
     rawApiResponse := JsObj [("status", JsStr "EXPIRED")] |}.

(** The row of the order, carrying the given payload, and a store that
    holds it. *)
Definition row_with_payload (payload : JsValue (option Z)) : Row :=
  {| id := 1;
     columns := patch_status_raw (new_transaction completed_order env false)
                  "completed" payload |}.

Definition store_with_payload (payload : JsValue (option Z)) : Store :=
  [row_with_payload payload].

(** The payload of the spec's second example, [{foo: 1}]. *)
Definition foo_payload : JsValue (option Z) :=
  JsObj [("foo", JsNum (Some 1%Z))].

Definition in_time : Network :=
  {| settles_after := Some 150; query_first_on_tie := true;
     query_fault := NoFault |}.

Definition too_late : Network :=
  {| settles_after := Some 2500; query_first_on_tie := true;
     query_fault := NoFault |}.

(** The page shows the first order, then the other, then the first again. *)
Definition back_and_forth : list (@Render (option Z)) :=
  [ {| shown := expired_order; wire := in_time |};
    {| shown := other_expired_order; wire := in_time |};
    {| shown := expired_order; wire := in_time |} ].

Definition same_order_thrice : list (@Render (option Z)) :=
  [ {| shown := expired_order; wire := in_time |};
    {| shown := expired_order; wire := too_late |};
    {| shown := expired_order; wire := in_time |} ].

(** The fallback catalog of the service, and one with a send-only asset. *)
Definition btc : BridgeForm.Currency :=
  BridgeForm.mkCurrency "BTC" "Bitcoin" "https://ff.io/static/currencies/btc.svg"
    "Bitcoin" true "#F7931A" "btc" "BTC" 1 1.
Definition eth : BridgeForm.Currency :=
  BridgeForm.mkCurrency "ETH" "Ethereum" "https://ff.io/static/currencies/eth.svg"
    "Ethereum" true "#627EEA" "eth" "ETH" 1 1.
Definition send_only : BridgeForm.Currency :=
  BridgeForm.mkCurrency "XMR" "Monero" "https://ff.io/static/currencies/xmr.svg"
    "Monero" true "#FF6600" "xmr" "XMR" 1 0.

Definition catalog : list BridgeForm.Currency := [btc; eth; send_only].

Definition btc_to_eth : BridgeForm.Form :=
  BridgeForm.mkForm "BTC" "ETH" "0.5".
Definition xmr_to_eth : BridgeForm.Form :=
  BridgeForm.mkForm "XMR" "ETH" "3".

End Samples.


(* ===================================================================== *)
(** ** Further parts of the sources *)
(* ===================================================================== *)

(** *** What the comparisons of doubles obey *)

Module JsLaws.

(** [x < y], and the facts about [<], [<=] and [===] used below; each
    holds of IEEE doubles. *)
Class JsNumberOrder (number : Type) `{JsNumber number} : Type := {
  num_lt : number -> number -> bool;             (* false when NaN *)
  lt_excludes_ge : forall x y, num_lt x y = true -> num_le y x = false;
  one_is_truthy :
    forall n, num_eqb n (num_of_Z 1) = true -> num_truthy n = true;
  one_is_one : num_eqb (num_of_Z 1) (num_of_Z 1) = true;
  zero_is_not_one : num_eqb (num_of_Z 0) (num_of_Z 1) = false
}.

End JsLaws.

Import JsLaws.

(** *** The currency catalog ([fetchCurrencies], useBridgeService.ts) *)

Module CurrencyCatalog.

Section Model.
Context {number : Type} `{JsNumber number}.

(** [String.prototype.toLowerCase]. *)
Variable toLowerCase : string -> string.

(** An entry as [fetchCurrencies] builds it: [available] is computed, the
    other fields are whatever the backend sent or the default. *)
Record Currency : Type := mkCurrency {
  symbol : JsValue number;
  name : JsValue number;
  image : JsValue number;
  network : JsValue number;
  available : bool;
  color : JsValue number;
  coin : JsValue number;
  code : JsValue number;
  logo : JsValue number;
  recv : JsValue number;
  send : JsValue number;
  tag : JsValue number;
  priority : JsValue number
}.

(** [v === z] for an integer literal [z]. *)
Definition is_number (v : JsValue number) (z : Z) : bool :=
  match v with
  | JsNum n => num_eqb n (num_of_Z z)
  | _ => false
  end.

(** An entry of [MOCK_CURRENCIES], lines 10-71: send and recv are 1, and
    logo, tag and priority are not given. *)
Definition mock_currency (symbol name image network color coin code : string)
  : Currency :=
  {| symbol := JsStr symbol; name := JsStr name; image := JsStr image;
     network := JsStr network; available := true; color := JsStr color;
     coin := JsStr coin; code := JsStr code; logo := JsNull;
     recv := JsNum (num_of_Z 1); send := JsNum (num_of_Z 1);
     tag := JsNull; priority := JsNull |}.

Definition MOCK_CURRENCIES : list Currency :=
  [ mock_currency "BTC" "Bitcoin" "https://ff.io/static/currencies/btc.svg"
      "Bitcoin" "#F7931A" "btc" "BTC";
    mock_currency "ETH" "Ethereum" "https://ff.io/static/currencies/eth.svg"
      "Ethereum" "#627EEA" "eth" "ETH";
    mock_currency "USDT" "Tether USD" "https://ff.io/static/currencies/usdt.svg"
      "Ethereum" "#26A17B" "usdt" "USDTETH";
    mock_currency "USDC" "USD Coin" "https://ff.io/static/currencies/usdc.svg"
      "Ethereum" "#2775CA" "usdc" "USDCETH";
    mock_currency "SOL" "Solana" "https://ff.io/static/currencies/sol.svg"
      "Solana" "#00ffbd" "sol" "SOL" ].

(** [currency.coin?.toLowerCase() || '']: [None] where the call throws,
    that is where [coin] is there and is not a string. *)
Definition lower_coin (coin : JsValue number) : option (JsValue number) :=
  match coin with
  | JsNull => Some (JsStr EmptyString)
  | JsStr c => Some (js_or (JsStr (toLowerCase c)) (JsStr EmptyString))
  | _ => None
  end.

(** The arrow function of [data.data.map], lines 109-123: [None] where it
    throws (a [null] entry, or a [coin] that is not a string). *)
Definition transform (currency : JsValue number) : option Currency :=
  match currency with
  | JsNull => None
  | _ =>
      match lower_coin (get_prop currency "coin") with
      | None => None
      | Some lowered =>
          Some
            {| symbol := get_prop currency "code";
               name := js_or (get_prop currency "name") (JsStr EmptyString);
               image := js_or (get_prop currency "logo") JsNull;
               network := js_or (get_prop currency "network") JsNull;
               available := is_number (get_prop currency "send") 1
                            || is_number (get_prop currency "recv") 1;
               color := js_or (get_prop currency "color") JsNull;
               coin := lowered;
               code := js_or (get_prop currency "code") (JsStr EmptyString);
               logo := js_or (get_prop currency "logo") JsNull;
               recv := js_or (get_prop currency "recv") (JsNum (num_of_Z 0));
               send := js_or (get_prop currency "send") (JsNum (num_of_Z 0));
               tag := js_or (get_prop currency "tag") JsNull;
               priority :=
                 js_or (get_prop currency "priority") (JsNum (num_of_Z 0)) |}
      end
  end.

(** [items.map(transform)]: one throw ends the whole map. *)
Fixpoint transform_all (items : list (JsValue number))
  : option (list Currency) :=
  match items with
  | [] => Some []
  | item :: rest =>
      match transform item with
      | None => None
      | Some c =>
          match transform_all rest with
          | None => None
          | Some cs => Some (c :: cs)
          end
      end
  end.

(** The [try] block, lines 88-129: the catalog of the backend, or [None]
    where the block throws. *)
Definition backend_catalog (reply : @BridgeService.Invoke number)
  : option (list Currency) :=
  match reply with
  | BridgeService.InvokeRejected => None
  | BridgeService.InvokeResolved data error =>
      match error with
      | Some _ => None
      | None =>
          if negb (truthy data) then None
          else if is_number (get_prop data "code") 0 then
            match get_prop data "data" with
            | JsArr items => transform_all items
            | _ => None
            end
          else None
      end
  end.

(** What a call leaves: the list returned and the notifications shown. *)
Record Fetched : Type := mkFetched {
  currencies : list Currency;
  notices : list (string * string)
}.

Definition api_error_notice : string * string :=
  ("API Error", "Could not connect to exchange API. Using fallback data.").

(** [fetchCurrencies], lines 87-144. *)
Definition fetchCurrencies (reply : @BridgeService.Invoke number) : Fetched :=
  match backend_catalog reply with
  | Some currenciesArray =>
      {| currencies := currenciesArray; notices := [] |}
  | None =>
      {| currencies := MOCK_CURRENCIES; notices := [api_error_notice] |}
  end.

End Model.
End CurrencyCatalog.

(** *** The rest of the bridge form ([BridgeForm]) *)

Module BridgeFormView.

Section Model.
Context {number : Type} `{JsNumber number} `{!JsNumberOrder number}.

(** What the form reads from [useBridge()] for its checks. *)
Record View : Type := mkView {
  fromCurrency : string;
  toCurrency : string;
  amount : string;
  destinationAddress : string;
  amountError : option string;
  lastPriceData : JsValue number;
  isCalculating : bool
}.

(** [!!e] for a nullable string. *)
Definition opt_truthy (e : option string) : bool :=
  match e with
  | Some m => str_truthy m
  | None => false
  end.

(** [isFormValid], lines 128-135. *)
Definition isFormValid (v : View) : bool :=
  str_truthy (fromCurrency v)
  && str_truthy (toCurrency v)
  && str_truthy (amount v)
  && num_lt (num_of_Z 0) (parseFloat (amount v))
  && str_truthy (destinationAddress v)
  && negb (opt_truthy (amountError v)).

(** The condition of the second effect, line 69: when it holds the form
    asks for a quote. *)
Definition shouldAutoQuote (v : View) : bool :=
  str_truthy (fromCurrency v)
  && str_truthy (toCurrency v)
  && str_truthy (amount v)
  && num_lt (num_of_Z 0) (parseFloat (amount v))
  && negb (truthy (lastPriceData v))
  && negb (isCalculating v).

(** [v.toString()] for a value that is not [null]; inside an array,
    [null] prints as nothing. *)
Fixpoint js_toString (v : JsValue number) : string :=
  match v with
  | JsNull => EmptyString
  | JsBool true => "true"
  | JsBool false => "false"
  | JsNum n => num_toString n
  | JsStr s => s
  | JsArr items =>
      (fix join (l : list (JsValue number)) : string :=
         match l with
         | [] => EmptyString
         | [x] => js_toString x
         | x :: rest => (js_toString x ++ "," ++ join rest)%string
         end) items
  | JsObj _ => "[object Object]"
  end.

(** [{ rate, usdValue }] *)
Record ExchangeRate : Type := mkExchangeRate { rate : string; usdValue : string }.

(** The rate display of the form; [lastUpdateTime] in milliseconds. *)
Record Rates : Type := mkRates {
  fromExchangeRate : option ExchangeRate;
  toExchangeRate : option ExchangeRate;
  lastUpdateTime : option nat
}.

(** [parseFloat(side.rate?.toString() || "0").toFixed(8)] and
    [side.usd ? parseFloat(side.usd.toString()).toFixed(2) : "0.00"] *)
Definition exchange_rate_of (side : JsValue number) : ExchangeRate :=
  {| rate :=
       toFixed
         (parseFloat
            (match get_prop side "rate" with
             | JsNull => "0"
             | r => if str_truthy (js_toString r) then js_toString r else "0"
             end)) 8;
     usdValue :=
       if truthy (get_prop side "usd")
       then toFixed (parseFloat (js_toString (get_prop side "usd"))) 2
       else "0.00" |}.

(** The first effect, lines 42-65, run when [lastPriceData] changes. *)
Definition rateEffect (lastPriceData : JsValue number) (now : nat)
  (st : Rates) : Rates :=
  if truthy lastPriceData && truthy (get_prop lastPriceData "data") then
    let from := get_prop (get_prop lastPriceData "data") "from" in
    let to := get_prop (get_prop lastPriceData "data") "to" in
    if truthy from && truthy to then
      {| fromExchangeRate := Some (exchange_rate_of from);
         toExchangeRate := Some (exchange_rate_of to);
         lastUpdateTime := Some now |}
    else st
  else
    {| fromExchangeRate := None;
       toExchangeRate := None;
       lastUpdateTime := lastUpdateTime st |}.

End Model.

(** **** Submitting ([handleBridgeAssets], lines 75-92) *)










(** **** Refreshing the rate ([handleRefreshRate], lines 95-102) *)

Definition refresh_delay_ms : N := 120000.

(** The refresh button: its flag and the due times of the timers that
    will set it again. *)
Record Refresher : Type := mkRefresher {
  manualRefreshEnabled : bool;
  reenable_at : list N
}.

(** [handleRefreshRate] at time [now]: the new state, and whether
    [calculateReceiveAmount()] was called. *)
Definition handleRefreshRate (now : N) (st : Refresher) : Refresher * bool :=
  if manualRefreshEnabled st then
    ({| manualRefreshEnabled := false;
        reenable_at := reenable_at st ++ [(now + refresh_delay_ms)%N] |}, true)
  else (st, false).

(** A click on the refresh button: when, and whether a timer due in that
    very millisecond runs before it. *)
Record RefreshClick : Type := mkRefreshClick {
  at_ms : N;
  timer_first_on_tie : bool
}.

Definition due (c : RefreshClick) (d : N) : bool :=
  (d <? at_ms c)%N || ((d =? at_ms c)%N && timer_first_on_tie c).

(** The timers that are due run before the click is handled; a timer
    never runs early. *)
Definition fire_timers (c : RefreshClick) (st : Refresher) : Refresher :=
  if existsb (due c) (reenable_at st) then
    {| manualRefreshEnabled := true;
       reenable_at := filter (fun d => negb (due c d)) (reenable_at st) |}
  else st.

(** The times at which [calculateReceiveAmount()] is called over a
    series of clicks. *)
Fixpoint refreshes (st : Refresher) (clicks : list RefreshClick) : list N :=
  match clicks with
  | [] => []
  | c :: rest =>
      let (st', called) := handleRefreshRate (at_ms c) (fire_timers c st) in
      if called then at_ms c :: refreshes st' rest else refreshes st' rest
  end.

(** Each call comes at least the delay after the one before. *)
Fixpoint spaced (previous : option N) (calls : list N) : Prop :=
  match calls with
  | [] => True
  | t :: rest =>
      match previous with
      | Some t0 => (t0 + refresh_delay_ms <= t)%N
      | None => True
      end /\ spaced (Some t) rest
  end.

Definition fresh_refresher : Refresher :=
  {| manualRefreshEnabled := true; reenable_at := [] |}.

End BridgeFormView.

(** *** The destination address input
        (src/components/bridge/DestinationAddressInput.tsx) *)

Module DestinationAddressInput.

(** The props, with their defaults applied. *)
Record Props : Type := mkProps {
  value : string;
  borderColor : option string;
  receivingCurrency : string;
  currencyNetwork : string
}.

(** [placeholder], lines 42-44. *)
Definition placeholder (p : Props) : string :=
  if str_truthy (receivingCurrency p)
  then ("Enter " ++ receivingCurrency p ++ " wallet address")%string
  else "Enter receiving wallet address".

Definition generic_label : string :=
  "Destination Wallet Address (Receiving Network)".

(** [networkLabel], lines 47-49. *)
Definition networkLabel (p : Props) : string :=
  if str_truthy (currencyNetwork p) && str_truthy (receivingCurrency p)
  then ("Destination Wallet Address (" ++ currencyNetwork p ++ ")")%string
  else generic_label.

(** [borderStyle], lines 34-39, as the list of its properties. *)
Definition borderStyle (p : Props) : list (string * string) :=
  match borderColor p with
  | Some c =>
      if str_truthy c then [("borderColor", c); ("borderWidth", "2px")]
      else []
  | None => []
  end.

(** [toCurrencyObj] of the form, lines 107-108. *)
Definition toCurrencyObj (availableCurrencies : list BridgeForm.Currency)
  (toCurrency : string) : option BridgeForm.Currency :=
  find (fun c => BridgeForm.code c =? toCurrency) availableCurrencies.

(** The props the form renders the input with, lines 200-205:
    [currencyNetwork] is not passed and takes its default. *)
Definition rendered_by_form (availableCurrencies : list BridgeForm.Currency)
  (toCurrency destinationAddress : string) : Props :=
  {| value := destinationAddress;
     borderColor :=
       option_map BridgeForm.color
         (toCurrencyObj availableCurrencies toCurrency);
     receivingCurrency := toCurrency;
     currencyNetwork := EmptyString |}.

End DestinationAddressInput.

(** *** The integer stand-in obeys the laws of the comparisons *)

Module IntNumberLaws.
Import IntNumber.

Definition int_lt (a b : option Z) : bool :=
  match a, b with
  | Some x, Some y => (x <? y)%Z
  | _, _ => false
  end.

#[export] Instance int_number_order : JsNumberOrder (option Z).
Proof.
  refine {| num_lt := int_lt |}.
  - intros [x|] [y|]; simpl; try discriminate.
    intros Hlt. apply Z.ltb_lt in Hlt. apply Z.leb_gt. exact Hlt.
  - intros [n|]; simpl; try discriminate.
    intros E. apply Z.eqb_eq in E. now subst n.
  - reflexivity.
  - reflexivity.
Defined.

(** Lower case of the ASCII letters. *)
Definition ascii_lower (c : ascii) : ascii :=
  let n := nat_of_ascii c in
  if (65 <=? n)%nat && (n <=? 90)%nat then ascii_of_nat (n + 32) else c.

Fixpoint lower (s : string) : string :=
  match s with
  | EmptyString => EmptyString
  | String c rest => String (ascii_lower c) (lower rest)
  end.

End IntNumberLaws.

(** *** Further concrete inputs *)

Module MoreSamples.
Import IntNumber IntNumberLaws.

Local Abbreviation Value := (JsValue (option Z)).

(** Two entries as the exchange lists them. *)
Definition listed_btc : Value :=
  JsObj [ ("code", JsStr "BTC"); ("coin", JsStr "BTC");
          ("name", JsStr "Bitcoin"); ("network", JsStr "BTC");
          ("send", JsNum (Some 1%Z)); ("recv", JsNum (Some 1%Z)) ].

Definition listed_frozen : Value :=
  JsObj [ ("code", JsStr "XMR"); ("coin", JsStr "XMR");
          ("name", JsStr "Monero"); ("network", JsStr "XMR");
          ("send", JsNum (Some 0%Z)); ("recv", JsNum (Some 0%Z)) ].

(** An entry whose [coin] is a number. *)
Definition listed_malformed : Value :=
  JsObj [ ("code", JsStr "BAD"); ("coin", JsNum (Some 7%Z)) ].

Definition catalog_reply (items : list Value)
  : @BridgeService.Invoke (option Z) :=
  BridgeService.InvokeResolved
    (JsObj [ ("code", JsNum (Some 0%Z)); ("msg", JsStr "OK");
             ("data", JsArr items) ])
    None.

(** A form ready to be submitted. *)
Definition ready_view : @BridgeFormView.View (option Z) :=
  {| BridgeFormView.fromCurrency := "BTC";
     BridgeFormView.toCurrency := "ETH";
     BridgeFormView.amount := "2";
     BridgeFormView.destinationAddress := "0x742d35Cc";
     BridgeFormView.amountError := None;
     BridgeFormView.lastPriceData := JsNull;
     BridgeFormView.isCalculating := false |}.

(** Three clicks on refresh: at 1 s, 61 s and 121 s. *)
Definition three_clicks : list BridgeFormView.RefreshClick :=
  [ BridgeFormView.mkRefreshClick 1000 true;
    BridgeFormView.mkRefreshClick 61000 true;
    BridgeFormView.mkRefreshClick 121000 true ].

(** The order of [Samples], recovered with the payload [{foo: 1}]. *)
Definition recovered_order : @Reconciler.OrderDetails (option Z) :=
  Reconciler.spread_status_raw Samples.expired_order "completed"
    Samples.foo_payload.

(** Another order, completed. *)
Definition other_completed_order : @Reconciler.OrderDetails (option Z) :=
  Reconciler.spread_status_raw Samples.other_expired_order "completed"
    (JsObj [("status", JsStr "DONE")]).

(** The page without a session token. *)
Definition props_without_token : @Reconciler.Props (option Z) :=
  {| Reconciler.orderDetails := Some Samples.expired_order;
     Reconciler.simulateSuccess := false;
     Reconciler.token := EmptyString;
     Reconciler.transactionSaved := false;
     Reconciler.onOrderDetailsUpdate := true;
     Reconciler.hasCheckedExpiredOrderRef := None |}.

(** A query that comes back in time with an error object. *)
Definition refused_in_time : Reconciler.Network :=
  {| Reconciler.settles_after := Some 150;
     Reconciler.query_first_on_tie := true;
     Reconciler.query_fault := Reconciler.ErrorReply Samples.connection_lost |}.

(** An entry that can only be received and one that can only be sent. *)
Definition recv_only : BridgeForm.Currency :=
  BridgeForm.mkCurrency "AAA" "Asset A" "a.svg" "A" true "#111111" "aaa" "AAA"
    0 1.
Definition sends_only : BridgeForm.Currency :=
  BridgeForm.mkCurrency "BBB" "Asset B" "b.svg" "B" true "#222222" "bbb" "BBB"
    1 0.

End MoreSamples.

(* ===================================================================== *)
(** * Properties *)
(* ===================================================================== *)

Module ReconcilerFacts.
Import Reconciler.

(** *** Facts about the store *)

Section StoreFacts.
Context {number : Type} `{JsNumber number}.

Local Abbreviation Store := (@Store number).
Local Abbreviation Row := (@Row number).
Local Abbreviation Transaction := (@Transaction number).

Lemma has_key_patch (k st : string) (raw : JsValue number) (r : Row) :
  has_key k {| id := id r; columns := patch_status_raw (columns r) st raw |}
  = has_key k r.
Proof. reflexivity. Qed.

Lemma filter_key_update (k key st : string) (raw : JsValue number) (s : Store) :
  length (filter (has_key k) (db_update key st raw s))
  = length (filter (has_key k) s).
Proof.
  induction s as [|r s IH]; simpl; [reflexivity|].
  destruct (has_key key r); rewrite ?has_key_patch;
    destruct (has_key k r); simpl; now rewrite IH.
Qed.

Lemma count_key_update (k key st : string) (raw : JsValue number) (s : Store) :
  count_key k (db_update key st raw s) = count_key k s.
Proof. apply filter_key_update. Qed.

Lemma db_update_length (key st : string) (raw : JsValue number) (s : Store) :
  length (db_update key st raw s) = length s.
Proof. apply length_map. Qed.

Lemma count_key_app (k : string) (s t : Store) :
  count_key k (s ++ t) = count_key k s + count_key k t.
Proof. unfold count_key. now rewrite filter_app, length_app. Qed.

Lemma existsb_count (k : string) (s : Store) :
  existsb (has_key k) s = false <-> count_key k s = 0.
Proof.
  unfold count_key. induction s as [|r s IH]; simpl; [tauto|].
  destruct (has_key k r); simpl; [split; discriminate | exact IH].
Qed.

Lemma db_select_nil (k : string) (s : Store) :
  db_select k s = [] <-> count_key k s = 0.
Proof.
  unfold db_select, count_key.
  destruct (filter (has_key k) s); simpl; split; congruence.
Qed.

Lemma db_select_found (k : string) (s : Store) :
  1 <= count_key k s ->
  exists r, db_select k s = [r] /\ In r s /\ has_key k r = true.
Proof.
  unfold db_select, count_key. intros Hc.
  destruct (filter (has_key k) s) as [|r l] eqn:E; simpl in Hc; [lia|].
  exists r. split; [reflexivity|].
  apply filter_In. rewrite E. now left.
Qed.

Lemma db_select_sound (k : string) (s : Store) (r : Row) (l : list Row) :
  db_select k s = r :: l -> l = [] /\ In r s /\ has_key k r = true.
Proof.
  unfold db_select. intros E.
  destruct (filter (has_key k) s) as [|r' l'] eqn:F; simpl in E; [discriminate|].
  injection E as -> <-. split; [reflexivity|].
  apply filter_In. rewrite F. now left.
Qed.

(** A successful insert adds one row under the inserted key and none
    under another. *)
Lemma db_insert_count (t : Transaction) (s s' : Store) (r : Row) (k : string) :
  db_insert t s = inr (s', r) ->
  count_key k s' = count_key k s + (if ff_order_id t =? k then 1 else 0)
  /\ count_key (ff_order_id t) s = 0
  /\ length s' = S (length s).
Proof.
  unfold db_insert. intros E.
  destruct (existsb (has_key (ff_order_id t)) s) eqn:X; [discriminate|].
  injection E as <- <-. rewrite count_key_app. repeat split.
  - f_equal. unfold count_key, has_key. simpl.
    now destruct (ff_order_id t =? k).
  - now apply existsb_count.
  - rewrite length_app. simpl. lia.
Qed.

Lemma db_insert_refused (t : Transaction) (s : Store) (e : StoreError) :
  db_insert t s = inl e ->
  e = unique_violation /\ 1 <= count_key (ff_order_id t) s.
Proof.
  unfold db_insert. intros E.
  destruct (existsb (has_key (ff_order_id t)) s) eqn:X.
  - injection E as <-. split; [reflexivity|].
    destruct (count_key (ff_order_id t) s) eqn:C; [|lia].
    apply existsb_count in C. congruence.
  - destruct (existsb_count (ff_order_id t) s) as [_ _]. discriminate.
Qed.

Lemma db_update_rows (key st : string) (raw : JsValue number) (s : Store)
  (r : Row) :
  In r (db_update key st raw s) -> has_key key r = true ->
  status (columns r) = st /\ raw_api_response (columns r) = raw.
Proof.
  unfold db_update. intros Hin Hk. apply in_map_iff in Hin.
  destruct Hin as [r0 [E _]]. destruct (has_key key r0) eqn:K.
  - subst r. simpl. split; reflexivity.
  - subst r. congruence.
Qed.

End StoreFacts.

(** *** The save on completion *)

Ltac eff :=
  unfold run, saveEffect, saveTransaction, handleExpiredStatus, expiredEffect,
    race_query, select_id, select_all, update, insert, request, try_catch,
    bind, ret, throw, log, toast, act, setTimeout, emit;
  simpl.

Section SaveFacts.
Context {number : Type} `{JsNumber number}.

Local Abbreviation Store := (@Store number).
Local Abbreviation Row := (@Row number).
Local Abbreviation Props := (@Props number).
Local Abbreviation OrderDetails := (@OrderDetails number).

(** When the preconditions hold the effect is [saveTransaction]. *)
Lemma saveEffect_qualified (p : Props) (o : OrderDetails) env f :
  qualifies p o ->
  saveEffect p env f = saveTransaction o (simulateSuccess p) env f.
Proof.
  intros (Hsim & Hsaved & Ho & Hid & Hst & Hraw).
  unfold saveEffect. rewrite Hsim, Hsaved, Ho, Hst, Hraw. simpl.
  unfold str_truthy. destruct (String.eqb_spec (orderId o) EmptyString);
    [contradiction | reflexivity].
Qed.

(** A failing precondition: the effect returns at once, and leaves a log
    line and nothing else. *)
Lemma saveEffect_blocked (p : Props) env f (s : Store) :
  save_blocked p ->
  exists lvl msg,
    run (saveEffect p env f) s
    = (Returned tt, {| db := s; trace := [Do (Log lvl msg)] |}).
Proof.
  intros Hb. unfold saveEffect.
  destruct (simulateSuccess p) eqn:Hsim; [now eexists; eexists|].
  destruct (transactionSaved p) eqn:Hsaved; [now eexists; eexists|].
  destruct (orderDetails p) as [o|] eqn:Ho; [|now eexists; eexists].
  destruct (str_truthy (orderId o)) eqn:Hid; simpl; [|now eexists; eexists].
  destruct (String.eqb_spec (currentStatus o) "completed") as [Hst|Hst];
    simpl; [|now eexists; eexists].
  destruct (truthy (rawApiResponse o)) eqn:Hraw; simpl; [|now eexists; eexists].
  exfalso.
  destruct Hb as [Hb|[Hb|[Hb|(o' & Ho' & Hb)]]]; try congruence.
  assert (o' = o) by congruence. subst o'.
  destruct Hb as [Hb|[Hb|Hb]]; [|contradiction|congruence].
  unfold str_truthy in Hid. rewrite Hb in Hid. discriminate.
Qed.

Lemma saveEffect_blocked_db (p : Props) env f (s : Store) :
  save_blocked p ->
  fst (run (saveEffect p env f) s) = Returned tt /\
  db (snd (run (saveEffect p env f) s)) = s /\
  store_errors (trace (snd (run (saveEffect p env f) s))) = [].
Proof.
  intros Hb. destruct (saveEffect_blocked p env f s Hb) as (lvl & msg & ->).
  now repeat split.
Qed.

(** C2.  Whenever a precondition of the save fails -- simulateSuccess set,
    transactionSaved already true, the order or its id missing, a status
    other than 'completed', or no (truthy) rawApiResponse -- the effect
    returns at once: the store is unchanged, no request is sent to it, and
    nothing but a log line happens (no notification, no flag set). *)
Theorem save_preconditions_gate_writes (p : Props) env f (s : Store) :
  save_blocked p ->
  fst (run (saveEffect p env f) s) = Returned tt /\
  db (snd (run (saveEffect p env f) s)) = s /\
  store_calls (trace (snd (run (saveEffect p env f) s))) = [] /\
  store_errors (trace (snd (run (saveEffect p env f) s))) = [] /\
  visible (trace (snd (run (saveEffect p env f) s))) = [].
Proof.
  intros Hb. destruct (saveEffect_blocked p env f s Hb) as (lvl & msg & ->).
  now repeat split.
Qed.

Lemma saveEffect_cases (p : Props) :
  save_blocked p \/ exists o, qualifies p o.
Proof.
  unfold save_blocked, qualifies.
  destruct (simulateSuccess p); [left; now left|].
  destruct (transactionSaved p); [left; right; now left|].
  destruct (orderDetails p) as [o|]; [|left; right; right; now left].
  destruct (String.eqb_spec (orderId o) EmptyString) as [Hid|Hid].
  { left. right; right; right. exists o. tauto. }
  destruct (String.eqb_spec (currentStatus o) "completed") as [Hst|Hst].
  2:{ left. right; right; right. exists o. tauto. }
  destruct (truthy (rawApiResponse o)) eqn:Hraw.
  - right. exists o. tauto.
  - left. right; right; right. exists o. tauto.
Qed.

(** What [saveTransaction] can do to the store: nothing, the update of the
    rows of the order (which then exist), or the insert of its row (which
    then did not exist). *)
Lemma saveTransaction_db (o : OrderDetails) sim env f (s : Store) :
  let s' := db (snd (run (saveTransaction o sim env f) s)) in
  s' = s
  \/ (1 <= count_key (orderId o) s /\
      s' = db_update (orderId o) "completed" (rawApiResponse o) s)
  \/ (count_key (orderId o) s = 0 /\
      exists r, db_insert (new_transaction o env sim) s = inr (s', r)).
Proof.
  eff. destruct (on_select f); simpl; [|now left|now left].
  destruct (db_select (orderId o) s) as [|r0 l] eqn:Hsel; simpl.
  - apply db_select_nil in Hsel.
    destruct (on_insert f); simpl.
    + destruct (db_insert (new_transaction o env sim) s) as [e|[s1 r]] eqn:Hins;
        simpl.
      * destruct (is_duplicate e); now left.
      * right; right. split; [exact Hsel | now exists r].
    + destruct (is_duplicate e); now left.
    + now left.
  - assert (Hc : 1 <= count_key (orderId o) s).
    { destruct (count_key (orderId o) s) eqn:C; [|lia].
      apply db_select_nil in C. congruence. }
    destruct (truthy (rawApiResponse o)); simpl; [|now left].
    destruct (on_update f); simpl; [right; left; now split | now left | now left].
Qed.

(** Uniqueness of the key is an invariant of the save, for every key. *)
Lemma saveTransaction_unique (o : OrderDetails) sim env f (s : Store)
  (k : string) :
  count_key k s <= 1 ->
  count_key k (db (snd (run (saveTransaction o sim env f) s))) <= 1.
Proof.
  intros Hk.
  destruct (saveTransaction_db o sim env f s) as [E|[[_ E]|[Hz [r E]]]].
  - now rewrite E.
  - rewrite E, count_key_update. exact Hk.
  - destruct (db_insert_count _ _ _ _ k E) as (Hc & _ & _). rewrite Hc.
    simpl. destruct (String.eqb_spec (orderId o) k) as [<-|_]; lia.
Qed.

Lemma saveEffect_unique (p : Props) env f (s : Store) (k : string) :
  count_key k s <= 1 ->
  count_key k (db (snd (run (saveEffect p env f) s))) <= 1.
Proof.
  intros Hk. destruct (saveEffect_cases p) as [Hb|[o Hq]].
  - destruct (saveEffect_blocked_db p env f s Hb) as (_ & -> & _).
    exact Hk.
  - rewrite (saveEffect_qualified p o env f Hq).
    now apply saveTransaction_unique.
Qed.

(** A save that meets no fault leaves exactly one row for the order. *)
Lemma saveTransaction_no_faults (o : OrderDetails) sim env (s : Store) :
  count_key (orderId o) s <= 1 ->
  count_key (orderId o)
    (db (snd (run (saveTransaction o sim env no_faults) s))) = 1.
Proof.
  intros Hk. eff.
  destruct (db_select (orderId o) s) as [|r0 l] eqn:Hsel; simpl.
  - apply db_select_nil in Hsel. unfold db_insert.
    destruct (existsb_count (orderId o) s) as [_ Hex]. simpl.
    rewrite (Hex Hsel). simpl. rewrite count_key_app, Hsel.
    unfold count_key, has_key. simpl. now rewrite String.eqb_refl.
  - assert (Hc : count_key (orderId o) s <> 0).
    { intros C. apply db_select_nil in C. congruence. }
    destruct (truthy (rawApiResponse o)); simpl;
      rewrite ?count_key_update; lia.
Qed.

(** Once a row exists for the order, a save sends no insert, whatever
    goes wrong, and leaves the number of rows as it is. *)
Lemma saveTransaction_existing (o : OrderDetails) sim env f (s : Store) :
  1 <= count_key (orderId o) s ->
  let w := snd (run (saveTransaction o sim env f) s) in
  filter is_insert (store_calls (trace w)) = [] /\
  length (db w) = length s.
Proof.
  intros Hc. eff.
  destruct (on_select f); simpl; [|now split|now split].
  destruct (db_select (orderId o) s) as [|r0 l] eqn:Hsel; simpl.
  { apply db_select_nil in Hsel. lia. }
  destruct (truthy (rawApiResponse o)); simpl; [|now split].
  destruct (on_update f); simpl; rewrite ?db_update_length; now split.
Qed.

(** With a row there and the store answering, the save is a select, then
    the update of status and payload, then the saved flag. *)
Lemma saveTransaction_updates (o : OrderDetails) sim env f (s : Store) :
  1 <= count_key (orderId o) s ->
  truthy (rawApiResponse o) = true ->
  on_select f = NoFault -> on_update f = NoFault ->
  let w := snd (run (saveTransaction o sim env f) s) in
  store_calls (trace w)
    = [Call (SelectId (orderId o));
       Call (Update (orderId o) "completed" (rawApiResponse o))] /\
  db w = db_update (orderId o) "completed" (rawApiResponse o) s /\
  saved_flags (trace w) = [SetTransactionSaved true] /\
  toasts (trace w) = [].
Proof.
  intros Hc Hraw Hs Hu. eff. rewrite Hs. simpl.
  destruct (db_select (orderId o) s) as [|r0 l] eqn:Hsel; simpl.
  { apply db_select_nil in Hsel. lia. }
  rewrite Hraw, Hu. simpl. repeat split.
Qed.


(** C1.  Two saves in succession for one order id never leave two rows
    under a key: uniqueness of every key survives both calls.  For a
    qualifying order, a first save that meets no fault leaves its row, and
    once the row is there the second save sends no insert and adds no row;
    when the store answers, it is exactly the select by ff_order_id
    followed by the update that sets status 'completed' and overwrites
    raw_api_response with the payload of the second call. *)
Theorem save_twice_idempotent (p p' : Props) env env' f f' (s : Store) :
  let w1 := snd (run (saveEffect p env f) s) in
  let w2 := snd (run (saveEffect p' env' f') (db w1)) in
  (forall k, count_key k s <= 1 -> count_key k (db w2) <= 1) /\
  (forall o o' : OrderDetails,
     qualifies p o -> qualifies p' o' -> orderId o' = orderId o ->
     count_key (orderId o) s <= 1 ->
     (f = no_faults -> count_key (orderId o) (db w1) = 1) /\
     (1 <= count_key (orderId o) (db w1) ->
        filter is_insert (store_calls (trace w2)) = [] /\
        length (db w2) = length (db w1) /\
        (on_select f' = NoFault -> on_update f' = NoFault ->
           store_calls (trace w2)
             = [Call (SelectId (orderId o));
                Call (Update (orderId o) "completed" (rawApiResponse o'))] /\
           db w2 = db_update (orderId o) "completed" (rawApiResponse o') (db w1) /\
           saved_flags (trace w2) = [SetTransactionSaved true] /\
           (forall r, In r (db w2) -> has_key (orderId o) r = true ->
              status (columns r) = "completed" /\
              raw_api_response (columns r) = rawApiResponse o')))).
Proof.
  intros w1 w2. split.
  - intros k Hk. subst w1 w2. now do 2 apply saveEffect_unique.
  - intros o o' Hq Hq' Hid Hk. subst w1 w2.
    rewrite (saveEffect_qualified p o env f Hq).
    rewrite (saveEffect_qualified p' o' env' f' Hq').
    split.
    + intros ->. now apply saveTransaction_no_faults.
    + intros Hc. rewrite <- Hid in *.
      destruct (saveTransaction_existing o' (simulateSuccess p') env' f' _ Hc)
        as (Hins & Hlen).
      split; [exact Hins|]. split; [exact Hlen|].
      intros Hs Hu.
      destruct Hq' as (_ & _ & _ & _ & _ & Hraw).
      destruct (saveTransaction_updates o' (simulateSuccess p') env' f' _
                  Hc Hraw Hs Hu) as (Hcalls & Hdb & Hflag & _).
      split; [exact Hcalls|]. split; [exact Hdb|]. split; [exact Hflag|].
      intros r Hin Hkey. rewrite Hdb in Hin.
      exact (db_update_rows _ _ _ _ r Hin Hkey).
Qed.

Lemma saveTransaction_outcome (o : OrderDetails) sim env f (s : Store) :
  fst (run (saveTransaction o sim env f) s) = Returned tt /\
  SaveOutcome o (trace (snd (run (saveTransaction o sim env f) s))) /\
  exists rest,
    store_calls (trace (snd (run (saveTransaction o sim env f) s)))
    = Call (SelectId (orderId o)) :: rest.
Proof.
  eff. destruct (on_select f) as [|e|x]; simpl.
  - destruct (db_select (orderId o) s) as [|r0 l]; simpl.
    + destruct (on_insert f) as [|e|x]; simpl.
      * destruct (db_insert (new_transaction o env sim) s) as [e|[s1 r]]; simpl.
        -- destruct (is_duplicate e) eqn:D; simpl;
             (split; [reflexivity|split; [|eexists; reflexivity]]).
           ++ now eapply InsertDuplicate.
           ++ now eapply InsertFailed.
        -- split; [reflexivity|split; [|eexists; reflexivity]].
           now apply NoErrorReply.
      * destruct (is_duplicate e) eqn:D; simpl;
          (split; [reflexivity|split; [|eexists; reflexivity]]).
        -- now eapply InsertDuplicate.
        -- now eapply InsertFailed.
      * split; [reflexivity|split; [|eexists; reflexivity]].
        now apply NoErrorReply.
    + destruct (truthy (rawApiResponse o)); simpl.
      * destruct (on_update f) as [|e|x]; simpl;
          (split; [reflexivity|split; [|eexists; reflexivity]]).
        -- now apply NoErrorReply.
        -- now eapply UpdateFailed.
        -- now apply NoErrorReply.
      * split; [reflexivity|split; [|eexists; reflexivity]].
        now apply NoErrorReply.
  - split; [reflexivity|split; [|eexists; reflexivity]].
    now eapply SelectFailed.
  - split; [reflexivity|split; [|eexists; reflexivity]].
    now apply NoErrorReply.
Qed.

Lemma saveEffect_outcome (p : Props) env f (s : Store) :
  fst (run (saveEffect p env f) s) = Returned tt /\
  (store_errors (trace (snd (run (saveEffect p env f) s))) = [] \/
   exists o, qualifies p o /\
     SaveOutcome o (trace (snd (run (saveEffect p env f) s)))).
Proof.
  destruct (saveEffect_cases p) as [Hb|[o Hq]].
  - destruct (saveEffect_blocked_db p env f s Hb) as (R & _ & E).
    split; [exact R | now left].
  - rewrite (saveEffect_qualified p o env f Hq).
    destruct (saveTransaction_outcome o (simulateSuccess p) env f s) as (R & O & _).
    split; [exact R|]. right. now exists o.
Qed.

Ltac one_error Hin E :=
  rewrite E in Hin; destruct Hin as [Hin|[]]; injection Hin as <- <-.

(** The store's own constraint error is one the save recognises. *)
Example unique_violation_is_duplicate : is_duplicate unique_violation = true.
Proof. reflexivity. Qed.

(** C3.  When the insert of a save is answered with a store error: if the
    error is recognised as a duplicate-key / unique-constraint violation
    the saved flag is set and no notification is shown; for any other
    error the 'Database Error' notification is shown and the saved flag is
    not set. *)
Theorem insert_error_policy (p : Props) env f (s : Store) t e :
  let w := snd (run (saveEffect p env f) s) in
  In (Insert t, e) (store_errors (trace w)) ->
  if is_duplicate e
  then saved_flags (trace w) = [SetTransactionSaved true] /\
       toasts (trace w) = []
  else toasts (trace w) = [Toast "Database Error" "Failed to save transaction"] /\
       saved_flags (trace w) = [].
Proof.
  intros w Hin. subst w.
  destruct (saveEffect_outcome p env f s) as (_ & [E|(o & _ & O)]).
  { rewrite E in Hin. destruct Hin. }
  destruct O as [E|e0 E T F|e0 E T F|c e0 E D T F|c e0 E D T F].
  - rewrite E in Hin. destruct Hin.
  - rewrite E in Hin. destruct Hin as [Hin|[]]. discriminate.
  - rewrite E in Hin. destruct Hin as [Hin|[]]. discriminate.
  - one_error Hin E. rewrite D. now split.
  - one_error Hin E. rewrite D. now split.
Qed.

(** C8, amended.  A save never ends in an unhandled fault, whatever the
    store does.  An error reply to the select, or to the insert unless it
    is a duplicate-key violation, is turned into a 'Database Error'
    notification and leaves the saved flag unset; a qualifying call made
    with the flag unset queries the store again.  An error reply to the
    update of an existing row is only logged: no notification is shown and
    the saved flag is set. *)
Theorem save_error_policy (p : Props) env f (s : Store) :
  let w := snd (run (saveEffect p env f) s) in
  fst (run (saveEffect p env f) s) = Returned tt /\
  (forall c e, In (c, e) (store_errors (trace w)) ->
     match c with
     | SelectId _ =>
         toasts (trace w)
           = [Toast "Database Error" "Failed to check for existing transaction"] /\
         saved_flags (trace w) = []
     | Insert _ =>
         if is_duplicate e
         then saved_flags (trace w) = [SetTransactionSaved true] /\
              toasts (trace w) = []
         else toasts (trace w)
                = [Toast "Database Error" "Failed to save transaction"] /\
              saved_flags (trace w) = []
     | Update _ _ _ =>
         toasts (trace w) = [] /\
         saved_flags (trace w) = [SetTransactionSaved true]
     | SelectAll _ => False
     end) /\
  (forall o, qualifies p o ->
     exists rest, store_calls (trace w) = Call (SelectId (orderId o)) :: rest).
Proof.
  intros w. subst w.
  destruct (saveEffect_outcome p env f s) as (R & O).
  split; [exact R|]. split.
  - intros c e Hin. destruct O as [E|(o & _ & O)].
    { rewrite E in Hin. destruct Hin. }
    destruct O as [E|e0 E T F|e0 E T F|c0 e0 E D T F|c0 e0 E D T F].
    + rewrite E in Hin. destruct Hin.
    + one_error Hin E. now split.
    + one_error Hin E. now split.
    + one_error Hin E. rewrite D. now split.
    + one_error Hin E. rewrite D. now split.
  - intros o Hq. rewrite (saveEffect_qualified p o env f Hq).
    exact (proj2 (proj2 (saveTransaction_outcome o (simulateSuccess p) env f s))).
Qed.

End SaveFacts.

(** *** The recovery of an expired order *)

Section RecoveryFacts.
Context {number : Type} `{JsNumber number}.

Local Abbreviation Store := (@Store number).
Local Abbreviation Row := (@Row number).
Local Abbreviation Props := (@Props number).
Local Abbreviation OrderDetails := (@OrderDetails number).
Local Abbreviation Render := (@Render number).

Lemma str_truthy_true (x : string) : x <> EmptyString -> str_truthy x = true.
Proof.
  intros Hx. unfold str_truthy.
  now destruct (String.eqb_spec x EmptyString).
Qed.

(** The check always returns, and never touches the store. *)
Lemma handleExpiredStatus_returns (p : Props) n (w : @World number) :
  exists b, fst (handleExpiredStatus p n w) = Returned b /\
            db (snd (handleExpiredStatus p n w)) = db w.
Proof.
  eff. destruct (orderDetails p) as [o|]; simpl; [|now exists false].
  destruct (negb (str_truthy (orderId o)) || negb (str_truthy (token p)));
    simpl; [now exists false|].
  destruct (query_wins n); simpl; [|now exists false].
  destruct (query_fault n); simpl; [|now exists false|now exists false].
  destruct (db_select (orderId o) (db w)); simpl;
    [|destruct (onOrderDetailsUpdate p); simpl]; eexists; split; reflexivity.
Qed.

Lemma expiredEffect_entered (p : Props) n (s : Store) :
  shouldCheckExpiredStatus p = true ->
  exists b, fst (run (expiredEffect p n) s) = Returned (Some b).
Proof.
  intros Hc. unfold run, expiredEffect. rewrite Hc.
  unfold bind at 1. unfold log, act, emit. cbn [fst snd].
  unfold bind.
  match goal with |- context [handleExpiredStatus p n ?w] =>
    destruct (handleExpiredStatus_returns p n w) as (b & Hb & _);
    destruct (handleExpiredStatus p n w) as [c w'] end.
  simpl in Hb. subst c. now exists b.
Qed.

Lemma expiredEffect_skipped (p : Props) n (s : Store) :
  shouldCheckExpiredStatus p = false ->
  run (expiredEffect p n) s = (Returned None, {| db := s; trace := [] |}).
Proof. intros Hc. unfold run, expiredEffect. now rewrite Hc. Qed.

(** The guard of the second effect: a marker that holds the order's id
    keeps the check from being entered. *)
Lemma marked_not_checked (p : Props) (o : OrderDetails) :
  orderDetails p = Some o ->
  hasCheckedExpiredOrderRef p = Some (orderId o) ->
  shouldCheckExpiredStatus p = false.
Proof.
  intros Ho Hm. unfold shouldCheckExpiredStatus. rewrite Ho, Hm.
  rewrite String.eqb_refl. apply andb_false_r.
Qed.

Lemma checked_not_marked (base : Props) marker (o : OrderDetails) :
  shouldCheckExpiredStatus (props_at base marker o) = true ->
  marker <> Some (orderId o).
Proof.
  intros Hc ->. rewrite (marked_not_checked _ o) in Hc;
    [discriminate | reflexivity | reflexivity].
Qed.

Lemma session_step (base : Props) marker (s : Store) (r : Render) rest :
  (shouldCheckExpiredStatus (props_at base marker (shown r)) = true /\
   session base marker s (r :: rest)
   = orderId (shown r) :: session base (Some (orderId (shown r))) s rest)
  \/
  (shouldCheckExpiredStatus (props_at base marker (shown r)) = false /\
   session base marker s (r :: rest) = session base marker s rest).
Proof.
  destruct (shouldCheckExpiredStatus (props_at base marker (shown r))) eqn:Hc.
  - left. split; [reflexivity|]. simpl.
    destruct (expiredEffect_entered _ (wire r) s Hc) as (b & ->). reflexivity.
  - right. split; [reflexivity|]. simpl.
    now rewrite (expiredEffect_skipped _ (wire r) s Hc).
Qed.

Lemma session_no_repeat (base : Props) (s : Store) (renders : list Render) :
  forall marker, no_immediate_repeat marker (session base marker s renders).
Proof.
  induction renders as [|r rest IH]; intros marker; [exact I|].
  destruct (session_step base marker s r rest) as [[Hc ->]|[_ ->]].
  - split; [now apply checked_not_marked with (base := base) | apply IH].
  - apply IH.
Qed.

Lemma session_single_id (base : Props) (s : Store) (renders : list Render)
  (key : string) :
  (forall r, In r renders -> orderId (shown r) = key) ->
  session base (Some key) s renders = [] /\
  forall marker, length (session base marker s renders) <= 1.
Proof.
  induction renders as [|r rest IH]; intros Hall; [split; auto|].
  assert (Hr : orderId (shown r) = key) by (apply Hall; now left).
  destruct IH as [IH0 IH1]; [intros r' Hin; apply Hall; now right|].
  split.
  - destruct (session_step base (Some key) s r rest) as [[Hc _]|[_ ->]];
      [|exact IH0].
    apply checked_not_marked in Hc. congruence.
  - intros marker.
    destruct (session_step base marker s r rest) as [[_ ->]|[_ ->]].
    + rewrite Hr, IH0. simpl. lia.
    + apply IH1.
Qed.

(** C4, amended.  When the order and the token are there, the callback is
    provided and the query returns a record before the timeout, the check
    returns true, and once its timer has fired it has handed over one
    updated order and cleared the checking flag.  The updated order has
    currentStatus 'completed'; its rawApiResponse is the persisted
    raw_api_response when that one is truthy and the order's own when the
    persisted one is absent or otherwise falsy; every other field is the
    order's. *)
Theorem recovery_on_found_record (p : Props) (o : OrderDetails) n (s : Store)
  (r : Row) :
  orderDetails p = Some o ->
  orderId o <> EmptyString ->
  token p <> EmptyString ->
  onOrderDetailsUpdate p = true ->
  query_wins n = true ->
  query_fault n = NoFault ->
  db_select (orderId o) s = [r] ->
  let persisted := raw_api_response (columns r) in
  let updated :=
    spread_status_raw o "completed"
      (if truthy persisted then persisted else rawApiResponse o) in
  let w := snd (run (handleExpiredStatus p n) s) in
  fst (run (handleExpiredStatus p n) s) = Returned true /\
  order_updates (trace w) = [OnOrderDetailsUpdate updated] /\
  checking_flags (trace w) = [SetCheckingDb false] /\
  toasts (trace w) = [] /\
  db w = s /\
  currentStatus updated = "completed" /\
  (persisted = JsNull -> rawApiResponse updated = rawApiResponse o) /\
  (truthy persisted = true -> rawApiResponse updated = persisted) /\
  (truthy persisted = false -> rawApiResponse updated = rawApiResponse o) /\
  orderId updated = orderId o /\
  fromCurrency updated = fromCurrency o /\
  toCurrency updated = toCurrency o /\
  depositAmount updated = depositAmount o /\
  destinationAddress updated = destinationAddress o /\
  depositAddress updated = depositAddress o /\
  ffOrderToken updated = ffOrderToken o /\
  expiresAt updated = expiresAt o.
Proof.
  intros Ho Hid Htok Hcb Hwin Hfault Hsel persisted updated w.
  subst w updated persisted. eff.
  rewrite Ho. simpl.
  rewrite (str_truthy_true _ Hid), (str_truthy_true _ Htok). simpl.
  rewrite Hwin. simpl. rewrite Hfault. simpl. rewrite Hsel. simpl.
  rewrite Hcb. simpl. unfold js_or.
  repeat split.
  - now intros ->.
  - now intros ->.
  - now intros ->.
Qed.

(** C5.  When the store holds no record under the order's id, the check
    returns false, never hands over an updated order, clears the checking
    flag once, and leaves the store as it is -- whatever the token, the
    timing or the faults of the query. *)
Theorem recovery_on_missing_record (p : Props) n (s : Store) :
  (forall o, orderDetails p = Some o -> count_key (orderId o) s = 0) ->
  let w := snd (run (handleExpiredStatus p n) s) in
  fst (run (handleExpiredStatus p n) s) = Returned false /\
  order_updates (trace w) = [] /\
  checking_flags (trace w) = [SetCheckingDb false] /\
  db w = s.
Proof.
  intros Hmiss w. subst w. eff.
  destruct (orderDetails p) as [o|]; simpl; [|now repeat split].
  specialize (Hmiss o eq_refl). apply db_select_nil in Hmiss.
  destruct (negb (str_truthy (orderId o)) || negb (str_truthy (token p)));
    simpl; [now repeat split|].
  destruct (query_wins n); simpl; [|now repeat split].
  destruct (query_fault n); simpl; [|now repeat split|now repeat split].
  rewrite Hmiss. simpl. now repeat split.
Qed.

(** C6.  The query is raced against a 2000 ms timer.  When the query has
    not settled within 2000 ms -- it settles later or never -- the check
    ends through the timeout: it returns false, shows the error
    notification and clears the checking flag, and hands over no order.
    The run is the same whatever the late query would have answered. *)
Theorem recovery_timeout (p : Props) (o : OrderDetails) n (s : Store) :
  orderDetails p = Some o ->
  orderId o <> EmptyString ->
  token p <> EmptyString ->
  (forall ms, settles_after n = Some ms -> 2000 < ms) ->
  let w := snd (run (handleExpiredStatus p n) s) in
  timeout_ms = 2000 /\
  run (handleExpiredStatus p n) s
    = (Returned false, {| db := s; trace := timeout_trace (orderId o) |}) /\
  toasts (trace w) = [Toast "Error" "Failed to check transaction status"] /\
  checking_flags (trace w) = [SetCheckingDb false] /\
  order_updates (trace w) = [].
Proof.
  intros Ho Hid Htok Hlate w. subst w.
  assert (Hlose : query_wins n = false).
  { unfold query_wins. destruct (settles_after n) as [ms|]; [|reflexivity].
    specialize (Hlate ms eq_refl). unfold timeout_ms.
    destruct (Nat.ltb_spec ms 2000); [lia|].
    destruct (Nat.eqb_spec ms 2000); [lia|]. reflexivity. }
  split; [reflexivity|].
  eff. rewrite Ho. simpl.
  rewrite (str_truthy_true _ Hid), (str_truthy_true _ Htok). simpl.
  rewrite Hlose. simpl. repeat split.
Qed.

(** C7, amended.  A marker that holds an order's id keeps the check from
    being entered for that order, and the marker is set as soon as a check
    is entered, whatever its outcome.  So no check is entered twice in a
    row for one id: between two entries for the same id lies an entry for
    another id, which took the single marker.  In a session that shows one
    order id the check is entered at most once, and every check returns. *)
Theorem single_entry_while_marked (base : Props) (s : Store) :
  (forall (p : Props) o n,
     orderDetails p = Some o ->
     hasCheckedExpiredOrderRef p = Some (orderId o) ->
     run (expiredEffect p n) s = (Returned None, {| db := s; trace := [] |})) /\
  (forall marker renders,
     no_immediate_repeat marker (session base marker s renders)) /\
  (forall marker renders key,
     (forall r, In r renders -> orderId (shown r) = key) ->
     length (session base marker s renders) <= 1) /\
  (forall (p : Props) n, exists b,
     fst (run (handleExpiredStatus p n) s) = Returned b).
Proof.
  split; [|split; [|split]].
  - intros p o n Ho Hm. apply expiredEffect_skipped.
    now apply marked_not_checked with (o := o).
  - intros marker renders. apply session_no_repeat.
  - intros marker renders key Hall.
    now apply (proj2 (session_single_id base s renders key Hall)).
  - intros p n. unfold run.
    destruct (handleExpiredStatus_returns p n {| db := s; trace := [] |})
      as (b & Hb & _).
    now exists b.
Qed.

End RecoveryFacts.


(** *** The properties on concrete inputs *)

Section Evaluated.
Import IntNumber Samples.

Lemma save_preconditions_gate_writes_witness :
  save_blocked (props_of processing_order) /\
  visible (trace (snd (run (saveEffect (props_of processing_order)
                              env no_faults) []))) = [].
Proof.
  assert (Hb : save_blocked (props_of processing_order)).
  { right; right; right. exists processing_order.
    split; [reflexivity|]. right; left. discriminate. }
  split; [exact Hb|].
  exact (proj2 (proj2 (proj2 (proj2
    (save_preconditions_gate_writes _ env no_faults [] Hb))))).
Defined.

Lemma completed_order_qualifies :
  qualifies (props_of completed_order) completed_order.
Proof. repeat split. discriminate. Qed.

(** The spec's first example, saved twice: one row, and the second call
    is select then update. *)
Lemma save_twice_idempotent_witness :
  let w1 := snd (run (saveEffect (props_of completed_order) env no_faults) []) in
  let w2 := snd (run (saveEffect (props_of completed_order) env no_faults) (db w1)) in
  count_key "FF-ABC123" (db w2) <= 1 /\
  store_calls (trace w2)
  = [Call (SelectId "FF-ABC123");
     Call (Update "FF-ABC123" "completed" (rawApiResponse completed_order))].
Proof.
  intros w1 w2.
  pose proof (save_twice_idempotent (props_of completed_order)
                (props_of completed_order) env env no_faults no_faults [])
    as [Huniq Hrest].
  split.
  - apply (Huniq "FF-ABC123"). unfold count_key. simpl. lia.
  - destruct (Hrest completed_order completed_order
                completed_order_qualifies completed_order_qualifies eq_refl)
      as [Hfirst Hsecond]; [unfold count_key; simpl; lia|].
    destruct Hsecond as (_ & _ & Hupd).
    { rewrite (Hfirst eq_refl). apply le_n. }
    exact (proj1 (Hupd eq_refl eq_refl)).
Defined.

Lemma insert_error_policy_witness :
  let w := snd (run (saveEffect (props_of completed_order) env insert_refused) []) in
  In (Insert (new_transaction completed_order env false), unique_violation)
     (store_errors (trace w)) /\
  saved_flags (trace w) = [SetTransactionSaved true] /\
  toasts (trace w) = [].
Proof.
  intros w.
  assert (Hin : In (Insert (new_transaction completed_order env false),
                    unique_violation) (store_errors (trace w)))
    by (left; reflexivity).
  split; [exact Hin|].
  exact (insert_error_policy (props_of completed_order) env insert_refused []
           _ _ Hin).
Defined.

Lemma save_error_policy_witness :
  let w := snd (run (saveEffect (props_of completed_order) env update_fails)
                  store_with_order) in
  In (Update "FF-ABC123" "completed" (rawApiResponse completed_order),
      connection_lost) (store_errors (trace w)) /\
  toasts (trace w) = [] /\
  saved_flags (trace w) = [SetTransactionSaved true].
Proof.
  intros w.
  assert (Hin : In (Update "FF-ABC123" "completed"
                      (rawApiResponse completed_order), connection_lost)
                   (store_errors (trace w)))
    by (left; reflexivity).
  split; [exact Hin|].
  exact (proj1 (proj2 (save_error_policy (props_of completed_order) env
                         update_fails store_with_order)) _ _ Hin).
Defined.

(** C8 as stated fails: the update of the existing row is answered with an
    error, yet no notification is shown and the saved flag is set. *)
Lemma update_error_is_swallowed :
  ~ claimed_save_error_policy (props_of completed_order) env update_fails
      store_with_order.
Proof.
  unfold claimed_save_error_policy. intros Hc.
  destruct Hc as [Ht _]; [discriminate|].
  apply Ht. reflexivity.
Qed.

(** The spec's second example: a row with payload [{foo: 1}]. *)
Lemma recovery_on_found_record_witness :
  let p := props_of expired_order in
  let w := snd (run (handleExpiredStatus p in_time)
                  (store_with_payload foo_payload)) in
  fst (run (handleExpiredStatus p in_time) (store_with_payload foo_payload))
    = Returned true /\
  order_updates (trace w)
    = [OnOrderDetailsUpdate (spread_status_raw expired_order "completed" foo_payload)].
Proof.
  intros p w.
  pose proof (recovery_on_found_record p expired_order in_time
                (store_with_payload foo_payload) (row_with_payload foo_payload))
    as Hr.
  assert (Hid : orderId expired_order <> EmptyString) by discriminate.
  assert (Htok : token p <> EmptyString) by discriminate.
  destruct (Hr eq_refl Hid Htok eq_refl eq_refl eq_refl eq_refl)
    as (Hret & Hupd & _).
  split; [exact Hret | exact Hupd].
Defined.

(** C4 as stated fails: the persisted payload is there, it is [false], and
    the updated order carries the order's own payload instead. *)
Lemma falsy_payload_is_not_copied :
  ~ claimed_recovery (props_of expired_order) in_time
      (store_with_payload (JsBool false)).
Proof.
  unfold claimed_recovery. intros Hc.
  specialize (Hc expired_order (row_with_payload (JsBool false))
                eq_refl eq_refl).
  vm_compute in Hc. discriminate Hc.
Qed.

Lemma recovery_on_missing_record_witness :
  (forall o, orderDetails (props_of expired_order) = Some o ->
             count_key (orderId o) empty_store = 0) /\
  fst (run (handleExpiredStatus (props_of expired_order) in_time) empty_store)
    = Returned false /\
  order_updates (trace (snd (run (handleExpiredStatus (props_of expired_order)
                                    in_time) empty_store))) = [].
Proof.
  assert (Hmiss : forall o, orderDetails (props_of expired_order) = Some o ->
                            count_key (orderId o) empty_store = 0)
    by (intros o _; reflexivity).
  split; [exact Hmiss|].
  destruct (recovery_on_missing_record (props_of expired_order) in_time empty_store
              Hmiss) as (Hret & Hupd & _).
  split; [exact Hret | exact Hupd].
Defined.

Lemma recovery_timeout_witness :
  (forall ms, settles_after too_late = Some ms -> 2000 < ms) /\
  run (handleExpiredStatus (props_of expired_order) too_late)
      (store_with_payload foo_payload)
  = (Returned false,
     {| db := store_with_payload foo_payload;
        trace := timeout_trace "FF-ABC123" |}).
Proof.
  assert (Hlate : forall ms, settles_after too_late = Some ms -> 2000 < ms).
  { intros ms E. injection E as <-. lia. }
  split; [exact Hlate|].
  assert (Hid : orderId expired_order <> EmptyString) by discriminate.
  assert (Htok : token (props_of expired_order) <> EmptyString) by discriminate.
  exact (proj1 (proj2
    (recovery_timeout (props_of expired_order) expired_order too_late
       (store_with_payload foo_payload) eq_refl Hid Htok Hlate))).
Defined.

Lemma single_entry_while_marked_witness :
  (forall r, In r same_order_thrice -> orderId (shown r) = "FF-ABC123") /\
  length (session (props_of expired_order) None empty_store same_order_thrice) <= 1.
Proof.
  assert (Hall : forall r, In r same_order_thrice ->
                           orderId (shown r) = "FF-ABC123").
  { intros r [<-|[<-|[<-|[]]]]; reflexivity. }
  split; [exact Hall|].
  exact (proj1 (proj2 (proj2
    (single_entry_while_marked (props_of expired_order) empty_store)))
    None same_order_thrice "FF-ABC123" Hall).
Defined.

(** C7 as stated fails: the page shows an order, another, and the first
    again; the single marker holds the other id by then, and the check for
    the first order is entered a second time. *)
Lemma marker_forgets_earlier_order :
  ~ claimed_single_entry (props_of expired_order) empty_store back_and_forth.
Proof.
  unfold claimed_single_entry. intros Hc.
  specialize (Hc "FF-ABC123"). vm_compute in Hc.
  apply le_S_n in Hc. inversion Hc.
Qed.

End Evaluated.

End ReconcilerFacts.

(* --------------------------------------------------------------------- *)

Module BridgeServiceFacts.
Import BridgeService.

Section QuoteFacts.
Context {number : Type} `{JsNumber number}.

Lemma str_truthy_spec (x : string) : str_truthy x = false <-> x = EmptyString.
Proof.
  unfold str_truthy. destruct (String.eqb_spec x EmptyString); simpl;
    split; congruence.
Qed.

Lemma guard_spec (fromCurrency toCurrency amount : string) :
  negb (str_truthy fromCurrency) || negb (str_truthy toCurrency)
  || negb (str_truthy amount) || num_le (parseFloat amount) (num_of_Z 0) = true
  <-> invalid_input fromCurrency toCurrency amount.
Proof.
  unfold invalid_input.
  rewrite !orb_true_iff, !negb_true_iff, !str_truthy_spec. tauto.
Qed.

(** The [try] block throws in each of the four ways the call fails. *)
Lemma backend_quote_fails (reply : Invoke) :
  backend_fails reply -> backend_quote reply = None.
Proof.
  destruct reply as [|data [msg|]]; simpl; try reflexivity.
  intros [E|[E|E]].
  - now contradiction E.
  - now rewrite E.
  - destruct (truthy data); [|reflexivity]. simpl.
    unfold code_is_zero in E. revert E.
    destruct (get_prop data "code"); try reflexivity. now intros ->.
Qed.

(** When it fails in none of them, it returns [responseData]. *)
Lemma backend_quote_succeeds (reply : Invoke) :
  ~ backend_fails reply ->
  exists data,
    reply = InvokeResolved data None /\
    truthy data = true /\
    code_is_zero data = true /\
    backend_quote reply
    = Some (JsObj [ ("code", get_prop data "code");
                    ("msg", get_prop data "msg");
                    ("data", get_prop data "data");
                    ("timestamp", get_prop data "timestamp");
                    ("expiresAt", get_prop data "expiresAt") ]).
Proof.
  destruct reply as [|data [msg|]]; simpl; intros Hok.
  - now contradiction Hok.
  - exfalso. apply Hok. left. discriminate.
  - destruct (truthy data) eqn:T; [|exfalso; apply Hok; auto].
    destruct (code_is_zero data) eqn:Z; [|exfalso; apply Hok; auto].
    exists data. split; [reflexivity|]. split; [exact T|].
    split; [exact Z|]. simpl.
    unfold code_is_zero in Z. revert Z.
    destruct (get_prop data "code"); try discriminate. now intros ->.
Qed.

(** C9.  [calculatePrice] returns null exactly when an input is missing
    (an empty fromCurrency, toCurrency or amount) or the amount parses to
    a number <= 0, and then leaves lastPriceCheck alone.  On any other
    input it returns a quote and records it.  When the backend call fails
    in any of its four ways -- a rejected promise, an error in the reply,
    no data, a code other than 0 -- that quote is the synthetic one,
    computed with rate 65000 when fromCurrency is 'BTC' and 3000
    otherwise.  When the call fails in none of them, the quote is made of
    the code, msg, data, timestamp and expiresAt of the reply's data,
    whose code is 0. *)
Theorem quote_null_contract (fromCurrency toCurrency amount : string)
  (orderType : OrderType) (reply : Invoke) (now : number)
  (last : option (JsValue number)) :
  let q := calculatePrice fromCurrency toCurrency amount orderType reply now last in
  (returned q = None <-> invalid_input fromCurrency toCurrency amount) /\
  (invalid_input fromCurrency toCurrency amount -> lastPriceCheck q = last) /\
  (~ invalid_input fromCurrency toCurrency amount ->
     exists quote, returned q = Some quote /\ lastPriceCheck q = Some quote) /\
  (~ invalid_input fromCurrency toCurrency amount ->
     backend_fails reply ->
     returned q = Some (mockResponse fromCurrency toCurrency amount now)) /\
  (~ invalid_input fromCurrency toCurrency amount ->
     ~ backend_fails reply ->
     exists data,
       reply = InvokeResolved data None /\
       truthy data = true /\
       code_is_zero data = true /\
       returned q
       = Some (JsObj [ ("code", get_prop data "code");
                       ("msg", get_prop data "msg");
                       ("data", get_prop data "data");
                       ("timestamp", get_prop data "timestamp");
                       ("expiresAt", get_prop data "expiresAt") ])) /\
  backend_fails (@InvokeRejected number) /\
  (forall data msg, backend_fails (InvokeResolved data (Some msg))) /\
  (forall data, truthy data = false ->
     backend_fails (InvokeResolved data None)) /\
  (forall data, code_is_zero data = false ->
     backend_fails (InvokeResolved data None)) /\
  mockRate fromCurrency
    = num_of_Z (if fromCurrency =? "BTC" then 65000 else 3000) /\
  get_prop (get_prop (get_prop
      (mockResponse fromCurrency toCurrency amount now) "data") "from") "usd"
    = JsNum (num_mul (parseFloat amount) (mockRate fromCurrency)).
Proof.
  intros q. subst q. unfold calculatePrice.
  pose proof (guard_spec fromCurrency toCurrency amount) as G.
  assert (Hrate : mockRate fromCurrency
                  = num_of_Z (if fromCurrency =? "BTC" then 65000 else 3000)).
  { unfold mockRate. now destruct (fromCurrency =? "BTC"). }
  assert (Hfails :
    backend_fails (@InvokeRejected number) /\
    (forall data msg, backend_fails (InvokeResolved data (Some msg))) /\
    (forall data, truthy data = false ->
       backend_fails (InvokeResolved data None)) /\
    (forall data, code_is_zero data = false ->
       backend_fails (InvokeResolved data None))).
  { split; [exact I|]. split; [|split].
    - intros data msg. left. discriminate.
    - intros data E. right. now left.
    - intros data E. right. now right. }
  destruct Hfails as (F1 & F2 & F3 & F4).
  destruct (negb (str_truthy fromCurrency) || negb (str_truthy toCurrency)
            || negb (str_truthy amount)
            || num_le (parseFloat amount) (num_of_Z 0)) eqn:E.
  - assert (Hinv : invalid_input fromCurrency toCurrency amount)
      by now apply G.
    simpl.
    split; [tauto|]. split; [reflexivity|]. split; [tauto|].
    split; [tauto|]. split; [tauto|].
    repeat (split; [assumption|]). reflexivity.
  - assert (Hval : ~ invalid_input fromCurrency toCurrency amount).
    { intros Hinv. apply G in Hinv. discriminate. }
    split; [|split; [|split; [|split; [|split]]]].
    + destruct (backend_quote reply); simpl; split;
        [discriminate | contradiction | discriminate | contradiction].
    + contradiction.
    + intros _. destruct (backend_quote reply) as [r|]; simpl;
        eexists; split; reflexivity.
    + intros _ Hf. now rewrite (backend_quote_fails reply Hf).
    + intros _ Hok.
      destruct (backend_quote_succeeds reply Hok) as (data & Er & T & Z & B).
      exists data. rewrite B. now repeat split.
    + repeat (split; [assumption|]). reflexivity.
Qed.

End QuoteFacts.

Section Evaluated.
Import IntNumber.

(** 2 BTC while the backend answers with code 301: the synthetic quote,
    worth 130000 USD at the fixed rate. *)
Lemma quote_null_contract_witness :
  let now := Some 1700000000000%Z in
  let refusal :=
    InvokeResolved
      (JsObj [("code", JsNum (Some 301%Z)); ("msg", JsStr "Invalid")])
      None in
  ~ invalid_input "BTC" "ETH" "2" /\
  backend_fails refusal /\
  returned (calculatePrice "BTC" "ETH" "2" Fixed refusal now None)
    = Some (mockResponse "BTC" "ETH" "2" now) /\
  get_prop (get_prop (get_prop (mockResponse "BTC" "ETH" "2" now) "data")
              "from") "usd" = JsNum (Some 130000%Z).
Proof.
  intros now refusal.
  assert (Hval : ~ invalid_input "BTC" "ETH" "2").
  { intros [E|[E|[E|E]]]; vm_compute in E; discriminate E. }
  assert (Hfail : backend_fails refusal) by (right; right; reflexivity).
  split; [exact Hval|]. split; [exact Hfail|]. split.
  - exact (proj1 (proj2 (proj2 (proj2
      (quote_null_contract "BTC" "ETH" "2" Fixed refusal now None))))
      Hval Hfail).
  - reflexivity.
Defined.

(** The same request with no data in the reply: the synthetic quote. *)
Example quote_without_data_is_synthetic :
  returned (calculatePrice "BTC" "ETH" "2" Fixed (InvokeResolved JsNull None)
              (Some 1700000000000%Z) None)
  = Some (mockResponse "BTC" "ETH" "2" (Some 1700000000000%Z)).
Proof. reflexivity. Qed.

(** The same request answered with code 0: the backend's quote. *)
Example quote_of_backend_is_returned :
  returned (calculatePrice "BTC" "ETH" "2" Fixed
              (InvokeResolved
                 (JsObj [("code", JsNum (Some 0%Z)); ("msg", JsStr "OK");
                         ("data", JsStr "payload")]) None)
              (Some 1700000000000%Z) None)
  = Some (JsObj [("code", JsNum (Some 0%Z)); ("msg", JsStr "OK");
                 ("data", JsStr "payload"); ("timestamp", JsNull);
                 ("expiresAt", JsNull)]).
Proof. reflexivity. Qed.

Example quote_of_zero_is_null :
  returned (calculatePrice "BTC" "ETH" "0" Float InvokeRejected
              (Some 1700000000000%Z) None) = None.
Proof. reflexivity. Qed.

End Evaluated.
End BridgeServiceFacts.

(* --------------------------------------------------------------------- *)

Module BridgeFormFacts.
Import BridgeForm.

Lemma find_send_spec (catalog : list Currency) (c : string) :
  (exists e, find (fun e => (code e =? c) && (send e =? 1)%Z) catalog = Some e)
  <-> can_send catalog c.
Proof.
  unfold can_send. split.
  - intros [e He]. apply find_some in He. destruct He as [Hin Hb].
    apply andb_true_iff in Hb. destruct Hb as [Hc Hs].
    exists e. split; [exact Hin|]. split.
    + now apply String.eqb_eq.
    + now apply Z.eqb_eq.
  - intros (e & Hin & Hc & Hs).
    destruct (find (fun e => (code e =? c) && (send e =? 1)%Z) catalog)
      as [e'|] eqn:F; [now exists e'|].
    pose proof (find_none _ _ F e Hin) as N. simpl in N.
    rewrite Hc, Hs, String.eqb_refl in N. discriminate.
Qed.

Lemma find_recv_spec (catalog : list Currency) (c : string) :
  (exists e, find (fun e => (code e =? c) && (recv e =? 1)%Z) catalog = Some e)
  <-> can_receive catalog c.
Proof.
  unfold can_receive. split.
  - intros [e He]. apply find_some in He. destruct He as [Hin Hb].
    apply andb_true_iff in Hb. destruct Hb as [Hc Hs].
    exists e. split; [exact Hin|]. split.
    + now apply String.eqb_eq.
    + now apply Z.eqb_eq.
  - intros (e & Hin & Hc & Hs).
    destruct (find (fun e => (code e =? c) && (recv e =? 1)%Z) catalog)
      as [e'|] eqn:F; [now exists e'|].
    pose proof (find_none _ _ F e Hin) as N. simpl in N.
    rewrite Hc, Hs, String.eqb_refl in N. discriminate.
Qed.

(** C10.  The swap exchanges fromCurrency and toCurrency, and empties the
    amount, exactly when the catalog lists the current toCurrency with
    send = 1 and the current fromCurrency with recv = 1; when either is
    not so, fromCurrency, toCurrency and amount stay as they are. *)
Theorem swap_guard (catalog : list Currency) (st : Form) :
  (can_send catalog (toCurrency st) /\ can_receive catalog (fromCurrency st) ->
     handleSwapCurrencies catalog st
     = {| fromCurrency := toCurrency st;
          toCurrency := fromCurrency st;
          amount := EmptyString |}) /\
  (~ (can_send catalog (toCurrency st) /\ can_receive catalog (fromCurrency st)) ->
     handleSwapCurrencies catalog st = st).
Proof.
  unfold handleSwapCurrencies.
  pose proof (find_send_spec catalog (toCurrency st)) as S.
  pose proof (find_recv_spec catalog (fromCurrency st)) as R.
  destruct (find (fun c => (code c =? toCurrency st) && (send c =? 1)%Z) catalog)
    as [a|]; destruct (find (fun c => (code c =? fromCurrency st) && (recv c =? 1)%Z)
                         catalog) as [b|]; split; intros Hc;
    try reflexivity.
  - exfalso. apply Hc. split; [apply S; now exists a | apply R; now exists b].
  - exfalso. destruct Hc as [_ Hr]. apply R in Hr. destruct Hr. discriminate.
  - exfalso. destruct Hc as [Hs _]. apply S in Hs. destruct Hs. discriminate.
  - exfalso. destruct Hc as [Hs _]. apply S in Hs. destruct Hs. discriminate.
Qed.

Section Evaluated.
Import Samples.

Lemma swap_guard_witness :
  (can_send catalog "ETH" /\ can_receive catalog "BTC") /\
  handleSwapCurrencies catalog btc_to_eth
  = {| fromCurrency := "ETH"; toCurrency := "BTC"; amount := EmptyString |}.
Proof.
  assert (Hc : can_send catalog (toCurrency btc_to_eth) /\
               can_receive catalog (fromCurrency btc_to_eth)).
  { split.
    - exists eth. split; [right; left; reflexivity | split; reflexivity].
    - exists btc. split; [left; reflexivity | split; reflexivity]. }
  split; [exact Hc|].
  exact (proj1 (swap_guard catalog btc_to_eth) Hc).
Defined.

(** XMR can be sent but not received: the swap leaves the form alone. *)
Example swap_refused_for_send_only :
  handleSwapCurrencies catalog xmr_to_eth = xmr_to_eth.
Proof. reflexivity. Qed.

End Evaluated.

End BridgeFormFacts.

(* ===================================================================== *)
(** * Further properties *)
(* ===================================================================== *)

Module ReconcilerMore.
Import Reconciler ReconcilerFacts.

Section SaveMore.
Context {number : Type} `{JsNumber number}.

Local Abbreviation Store := (@Store number).
Local Abbreviation Row := (@Row number).
Local Abbreviation Props := (@Props number).
Local Abbreviation OrderDetails := (@OrderDetails number).
Local Abbreviation Transaction := (@Transaction number).

Lemma has_key_eq (k : string) (r : Row) :
  has_key k r = true <-> ff_order_id (columns r) = k.
Proof. unfold has_key. apply String.eqb_eq. Qed.

Lemma filter_update_other (k key st : string) (raw : JsValue number)
  (s : Store) :
  key <> k ->
  filter (has_key k) (db_update key st raw s) = filter (has_key k) s.
Proof.
  intros Hne. induction s as [|r s IH]; simpl; [reflexivity|].
  destruct (has_key key r) eqn:K; rewrite ?has_key_patch;
    destruct (has_key k r) eqn:K'; rewrite ?IH; try reflexivity.
  apply has_key_eq in K, K'. congruence.
Qed.

Lemma filter_update_same (key st : string) (raw : JsValue number) (s : Store) :
  filter (has_key key) (db_update key st raw s)
  = map (fun r => {| id := id r;
                     columns := patch_status_raw (columns r) st raw |})
        (filter (has_key key) s).
Proof.
  induction s as [|r s IH]; simpl; [reflexivity|].
  destruct (has_key key r) eqn:K; simpl.
  - rewrite has_key_patch, K. simpl. now rewrite IH.
  - rewrite K. exact IH.
Qed.

Lemma ids_update (key st : string) (raw : JsValue number) (s : Store) :
  map id (db_update key st raw s) = map id s.
Proof.
  unfold db_update. rewrite map_map. apply map_ext.
  intros r. now destruct (has_key key r).
Qed.

(** An update that writes what the rows already hold changes nothing. *)
Lemma db_update_same (key st : string) (raw : JsValue number) (s : Store) :
  (forall r, In r s -> has_key key r = true ->
     status (columns r) = st /\ raw_api_response (columns r) = raw) ->
  db_update key st raw s = s.
Proof.
  intros Hall. induction s as [|r s IH]; simpl; [reflexivity|].
  rewrite IH by (intros r' Hin; apply Hall; now right).
  destruct (has_key key r) eqn:K; [|reflexivity].
  destruct (Hall r (or_introl eq_refl) K) as [Hst Hraw].
  destruct r as [i c]. destruct c. simpl in *. now subst.
Qed.

(** The requests of a save, in order, with what the store held. *)
Lemma saveTransaction_calls (o : OrderDetails) sim env f (s : Store) :
  let calls := store_calls (trace (snd (run (saveTransaction o sim env f) s))) in
  truthy (rawApiResponse o) = true ->
  calls = [Call (SelectId (orderId o))]
  \/ (1 <= count_key (orderId o) s /\
      calls = [Call (SelectId (orderId o));
               Call (Update (orderId o) "completed" (rawApiResponse o))])
  \/ (count_key (orderId o) s = 0 /\
      calls = [Call (SelectId (orderId o));
               Call (Insert (new_transaction o env sim))]).
Proof.
  intros calls Hraw. subst calls. eff.
  destruct (on_select f); simpl; [|now left|now left].
  destruct (db_select (orderId o) s) as [|r0 l] eqn:Hsel; simpl.
  - apply db_select_nil in Hsel. right; right. split; [exact Hsel|].
    destruct (on_insert f); simpl; try reflexivity.
    + destruct (db_insert (new_transaction o env sim) s) as [e|[s1 r]];
        simpl; [destruct (is_duplicate e)|]; reflexivity.
    + destruct (is_duplicate e); reflexivity.
  - assert (Hc : 1 <= count_key (orderId o) s).
    { destruct (count_key (orderId o) s) eqn:C; [|lia].
      apply db_select_nil in C. congruence. }
    right; left. split; [exact Hc|]. rewrite Hraw. simpl.
    destruct (on_update f); reflexivity.
Qed.

Lemma saveEffect_calls (p : Props) env f (s : Store) :
  let calls := store_calls (trace (snd (run (saveEffect p env f) s))) in
  calls = [] \/
  exists o, qualifies p o /\
    (calls = [Call (SelectId (orderId o))]
     \/ (1 <= count_key (orderId o) s /\
         calls = [Call (SelectId (orderId o));
                  Call (Update (orderId o) "completed" (rawApiResponse o))])
     \/ (count_key (orderId o) s = 0 /\
         calls = [Call (SelectId (orderId o));
                  Call (Insert (new_transaction o env false))])).
Proof.
  intros calls. subst calls.
  destruct (saveEffect_cases p) as [Hb|[o Hq]].
  - left. destruct (saveEffect_blocked p env f s Hb) as (lvl & msg & ->).
    reflexivity.
  - right. exists o. split; [exact Hq|].
    rewrite (saveEffect_qualified p o env f Hq).
    destruct Hq as (Hsim & _ & _ & _ & _ & Hraw). rewrite Hsim.
    now apply saveTransaction_calls.
Qed.

(** X1.  A save leaves every row of another order exactly as it was,
    keeps the ids and the order of the rows it found, and adds at most
    one row. *)
Theorem save_keeps_other_rows (p : Props) env f (s : Store) :
  let s' := db (snd (run (saveEffect p env f) s)) in
  (exists added, map id s' = map id s ++ added /\ length added <= 1) /\
  (forall k, (forall o, orderDetails p = Some o -> orderId o <> k) ->
     filter (has_key k) s' = filter (has_key k) s).
Proof.
  intros s'. subst s'.
  destruct (saveEffect_cases p) as [Hb|[o Hq]].
  { destruct (saveEffect_blocked_db p env f s Hb) as (_ & -> & _).
    split; [exists []; rewrite app_nil_r; auto | auto]. }
  rewrite (saveEffect_qualified p o env f Hq).
  assert (Ho : orderDetails p = Some o) by apply Hq.
  destruct (saveTransaction_db o (simulateSuccess p) env f s)
    as [E|[[_ E]|[_ [r E]]]].
  - rewrite E. split; [exists []; rewrite app_nil_r; auto | auto].
  - rewrite E. split.
    + exists []. rewrite app_nil_r, ids_update. auto.
    + intros k Hk. apply filter_update_other. now apply Hk.
  - unfold db_insert in E.
    destruct (existsb (has_key (ff_order_id
                (new_transaction o env (simulateSuccess p)))) s);
      [discriminate|].
    injection E as E _. rewrite <- E. split.
    + eexists. rewrite map_app. split; [reflexivity | simpl; lia].
    + intros k Hk. rewrite filter_app. simpl.
      destruct (has_key k _) eqn:K; [|apply app_nil_r].
      apply has_key_eq in K. simpl in K. now apply Hk in K.
Qed.

(** X2.  A save sends nothing, or the select alone, or the select and
    then one write: the update when the store held a row of the order,
    the insert when it held none -- never both, and never a second
    write. *)
Theorem save_sends_one_write_at_most (p : Props) env f (s : Store) :
  let calls := store_calls (trace (snd (run (saveEffect p env f) s))) in
  calls = [] \/
  exists o, qualifies p o /\
    (calls = [Call (SelectId (orderId o))]
     \/ (1 <= count_key (orderId o) s /\
         calls = [Call (SelectId (orderId o));
                  Call (Update (orderId o) "completed" (rawApiResponse o))])
     \/ (count_key (orderId o) s = 0 /\
         calls = [Call (SelectId (orderId o));
                  Call (Insert (new_transaction o env false))])).
Proof. apply saveEffect_calls. Qed.

(** X3.  Every row a save hands to [insert] has an order id, status
    'completed', a truthy raw_api_response, and a metadata snapshot whose
    simulation flag is false. *)
Theorem inserted_rows_are_complete (p : Props) env f (s : Store)
  (t : Transaction) :
  In (Call (Insert t))
     (store_calls (trace (snd (run (saveEffect p env f) s)))) ->
  ff_order_id t <> EmptyString /\
  status t = "completed" /\
  truthy (raw_api_response t) = true /\
  get_prop (client_metadata t) "simulation" = JsBool false.
Proof.
  intros Hin.
  destruct (saveEffect_calls p env f s) as [E|(o & Hq & [E|[[_ E]|[_ E]]])];
    rewrite E in Hin; simpl in Hin.
  - destruct Hin.
  - destruct Hin as [Hin|[]]. discriminate.
  - destruct Hin as [Hin|[Hin|[]]]; discriminate.
  - destruct Hin as [Hin|[Hin|[]]]; [discriminate|].
    injection Hin as <-.
    destruct Hq as (_ & _ & _ & Hid & _ & Hraw).
    repeat split; assumption.
Qed.

(** After a save that meets no fault, the select of the order finds a
    row that holds the payload just saved. *)
Lemma saved_row_selected (o : OrderDetails) sim env (s : Store) :
  truthy (rawApiResponse o) = true ->
  exists r,
    db_select (orderId o)
      (db (snd (run (saveTransaction o sim env no_faults) s))) = [r] /\
    status (columns r) = "completed" /\
    raw_api_response (columns r) = rawApiResponse o.
Proof.
  intros Hraw. eff.
  destruct (db_select (orderId o) s) as [|r0 l] eqn:Hsel; simpl.
  - apply db_select_nil in Hsel. unfold db_insert.
    destruct (existsb_count (orderId o) s) as [_ Hex]. simpl.
    rewrite (Hex Hsel). simpl.
    eexists. split.
    { unfold db_select. rewrite filter_app.
      unfold count_key in Hsel. apply length_zero_iff_nil in Hsel.
      rewrite Hsel. simpl. unfold has_key. simpl.
      rewrite String.eqb_refl. reflexivity. }
    split; reflexivity.
  - rewrite Hraw. simpl.
    unfold db_select in *. rewrite filter_update_same.
    destruct (filter (has_key (orderId o)) s) as [|r1 l1]; [discriminate|].
    simpl. eexists. split; [reflexivity|]. split; reflexivity.
Qed.

Lemma unique_row (k : string) (s : Store) (r : Row) :
  count_key k s = 1 -> db_select k s = [r] ->
  forall r', In r' s -> has_key k r' = true -> r' = r.
Proof.
  unfold count_key, db_select. intros Hc Hsel r' Hin Hk.
  assert (Hf : In r' (filter (has_key k) s)) by (apply filter_In; now split).
  destruct (filter (has_key k) s) as [|a [|b l]]; simpl in *;
    try discriminate.
  injection Hsel as <-. destruct Hf as [<-|[]]. reflexivity.
Qed.

End SaveMore.

Section RecoveryMore.
Context {number : Type} `{JsNumber number}.

Local Abbreviation Store := (@Store number).
Local Abbreviation Row := (@Row number).
Local Abbreviation Props := (@Props number).
Local Abbreviation OrderDetails := (@OrderDetails number).

(** The run of a check whose query returns a record in time. *)
Lemma handleExpiredStatus_found (p : Props) (o : OrderDetails) n (s : Store)
  (r : Row) :
  orderDetails p = Some o ->
  orderId o <> EmptyString ->
  token p <> EmptyString ->
  onOrderDetailsUpdate p = true ->
  query_wins n = true ->
  query_fault n = NoFault ->
  db_select (orderId o) s = [r] ->
  fst (run (handleExpiredStatus p n) s) = Returned true /\
  order_updates (trace (snd (run (handleExpiredStatus p n) s)))
  = [OnOrderDetailsUpdate
       (spread_status_raw o "completed"
          (js_or (raw_api_response (columns r)) (rawApiResponse o)))].
Proof.
  intros Ho Hid Htok Hcb Hwin Hfault Hsel. eff.
  rewrite Ho. simpl.
  rewrite (str_truthy_true _ Hid), (str_truthy_true _ Htok). simpl.
  rewrite Hwin. simpl. rewrite Hfault. simpl. rewrite Hsel. simpl.
  rewrite Hcb. simpl. now split.
Qed.

(** X4.  Save, then recover: once an order was saved without a fault, a
    recovery check for that order id whose query answers in time returns
    true and hands over the order marked 'completed' with exactly the
    payload that was saved. *)
Theorem saved_payload_is_recovered (p p' : Props) (o o' : OrderDetails)
  env n (s : Store) :
  qualifies p o ->
  orderDetails p' = Some o' ->
  orderId o' = orderId o ->
  token p' <> EmptyString ->
  onOrderDetailsUpdate p' = true ->
  query_wins n = true ->
  query_fault n = NoFault ->
  let saved := db (snd (run (saveEffect p env no_faults) s)) in
  fst (run (handleExpiredStatus p' n) saved) = Returned true /\
  order_updates (trace (snd (run (handleExpiredStatus p' n) saved)))
  = [OnOrderDetailsUpdate
       (spread_status_raw o' "completed" (rawApiResponse o))].
Proof.
  intros Hq Ho' Hid Htok Hcb Hwin Hfault saved. subst saved.
  rewrite (saveEffect_qualified p o env no_faults Hq).
  destruct Hq as (_ & _ & _ & Hne & _ & Hraw).
  destruct (saved_row_selected o (simulateSuccess p) env s Hraw)
    as (r & Hsel & _ & Hpay).
  rewrite <- Hid in Hsel, Hne.
  destruct (handleExpiredStatus_found p' o' n _ r Ho' Hne Htok Hcb Hwin
              Hfault Hsel) as (Hret & Hupd).
  split; [exact Hret|]. rewrite Hupd, Hpay. unfold js_or. now rewrite Hraw.
Qed.

(** X5.  Recover, then save: the order a recovery hands over, when its
    payload came from the store, passes the preconditions of the save;
    that save is the select and the update, writes the stored payload
    back, adds no row, sets the saved flag, and leaves a store whose row
    was the only one of the order and already 'completed' as it was. *)
Theorem recovered_order_saves_back (p p2 : Props) (o : OrderDetails) env n
  (s : Store) (r : Row) :
  orderDetails p = Some o ->
  orderId o <> EmptyString ->
  token p <> EmptyString ->
  onOrderDetailsUpdate p = true ->
  query_wins n = true ->
  query_fault n = NoFault ->
  db_select (orderId o) s = [r] ->
  truthy (raw_api_response (columns r)) = true ->
  simulateSuccess p2 = false ->
  transactionSaved p2 = false ->
  let updated :=
    spread_status_raw o "completed" (raw_api_response (columns r)) in
  orderDetails p2 = Some updated ->
  let w := snd (run (saveEffect p2 env no_faults) s) in
  order_updates (trace (snd (run (handleExpiredStatus p n) s)))
    = [OnOrderDetailsUpdate updated] /\
  qualifies p2 updated /\
  store_calls (trace w)
    = [Call (SelectId (orderId o));
       Call (Update (orderId o) "completed" (raw_api_response (columns r)))] /\
  db w = db_update (orderId o) "completed" (raw_api_response (columns r)) s /\
  length (db w) = length s /\
  saved_flags (trace w) = [SetTransactionSaved true] /\
  (count_key (orderId o) s = 1 -> status (columns r) = "completed" ->
     db w = s).
Proof.
  intros Ho Hid Htok Hcb Hwin Hfault Hsel Hpay Hsim Hsaved updated Ho2 w.
  assert (Hq : qualifies p2 updated) by (repeat split; assumption).
  assert (Hc : 1 <= count_key (orderId updated) s).
  { simpl. destruct (count_key (orderId o) s) eqn:C; [|lia].
    apply db_select_nil in C. congruence. }
  destruct (handleExpiredStatus_found p o n s r Ho Hid Htok Hcb Hwin Hfault
              Hsel) as (_ & Hupd).
  split. { rewrite Hupd. unfold js_or. now rewrite Hpay. }
  split; [exact Hq|]. subst w.
  rewrite (saveEffect_qualified p2 updated env no_faults Hq).
  destruct (saveTransaction_updates updated (simulateSuccess p2) env
              no_faults s Hc Hpay eq_refl eq_refl)
    as (Hcalls & Hdb & Hflag & _).
  simpl in Hcalls, Hdb.
  split; [exact Hcalls|]. split; [exact Hdb|].
  split; [rewrite Hdb; apply db_update_length|].
  split; [exact Hflag|].
  intros Hone Hst. rewrite Hdb. apply db_update_same.
  intros r' Hin Hk.
  rewrite (unique_row (orderId o) s r Hone Hsel r' Hin Hk). now split.
Qed.

(** X6.  Whatever the props, the timing and the faults, a recovery check
    returns, leaves the store as it is, sends at most the one select,
    never touches the saved flag, shows at most one notification, and
    clears the checking flag exactly once; it hands over an order only
    when it returns true. *)
Theorem recovery_clears_checking_once (p : Props) n (s : Store) :
  let w := snd (run (handleExpiredStatus p n) s) in
  (exists b, fst (run (handleExpiredStatus p n) s) = Returned b /\
             (order_updates (trace w) <> [] -> b = true)) /\
  db w = s /\
  (store_calls (trace w) = [] \/
   exists o, orderDetails p = Some o /\
             store_calls (trace w) = [Call (SelectAll (orderId o))]) /\
  saved_flags (trace w) = [] /\
  length (toasts (trace w)) <= 1 /\
  checking_flags (trace w) = [SetCheckingDb false].
Proof.
  intros w. subst w. eff.
  destruct (orderDetails p) as [o|]; simpl.
  2:{ split; [exists false; split; [reflexivity|intros C; now destruct C]|].
      repeat split; auto. }
  destruct (negb (str_truthy (orderId o)) || negb (str_truthy (token p)));
    simpl.
  { split; [exists false; split; [reflexivity|intros C; now destruct C]|].
    repeat split; auto. }
  destruct (query_wins n); simpl.
  2:{ split; [exists false; split; [reflexivity|intros C; now destruct C]|].
      repeat split; auto. right. now exists o. }
  destruct (query_fault n); simpl.
  2,3: (split; [exists false; split; [reflexivity|intros C; now destruct C]|];
        repeat split; auto; right; now exists o).
  destruct (db_select (orderId o) s) as [|r l]; simpl.
  { split; [exists false; split; [reflexivity|intros C; now destruct C]|].
    repeat split; auto. right. now exists o. }
  destruct (onOrderDetailsUpdate p); simpl;
    (split; [exists true; split; reflexivity|];
     repeat split; auto; right; now exists o).
Qed.

(** X7.  Without an order, an order id or a token the check gives up
    before it queries: no request, no notification, no order handed
    over, the checking flag cleared at once, false returned -- also when
    the store holds the record. *)
Theorem recovery_needs_id_and_token (p : Props) n (s : Store) :
  (orderDetails p = None \/ token p = EmptyString \/
   exists o, orderDetails p = Some o /\ orderId o = EmptyString) ->
  let w := snd (run (handleExpiredStatus p n) s) in
  fst (run (handleExpiredStatus p n) s) = Returned false /\
  store_calls (trace w) = [] /\
  toasts (trace w) = [] /\
  order_updates (trace w) = [] /\
  filter is_checking_flag (immediate (trace w)) = [SetCheckingDb false].
Proof.
  intros Hg w. subst w. eff.
  destruct (orderDetails p) as [o|]; simpl; [|now repeat split].
  assert (G : negb (str_truthy (orderId o)) || negb (str_truthy (token p))
              = true).
  { destruct Hg as [Hg|[Hg|(o' & Ho' & Hg)]].
    - discriminate.
    - rewrite Hg. apply orb_true_r.
    - injection Ho' as <-. now rewrite Hg. }
  rewrite G. simpl. now repeat split.
Qed.

(** X8.  When the query of the check comes back in time with an error
    object, the check shows 'Database Error', and when its promise is
    rejected, it shows 'Error'; either way it returns false, hands over
    no order and clears the checking flag at once -- also when the store
    holds the record. *)
Theorem recovery_query_failure (p : Props) (o : OrderDetails) n (s : Store) :
  orderDetails p = Some o ->
  orderId o <> EmptyString ->
  token p <> EmptyString ->
  query_wins n = true ->
  query_fault n <> NoFault ->
  let w := snd (run (handleExpiredStatus p n) s) in
  fst (run (handleExpiredStatus p n) s) = Returned false /\
  order_updates (trace w) = [] /\
  filter is_checking_flag (immediate (trace w)) = [SetCheckingDb false] /\
  toasts (trace w)
  = [match query_fault n with
     | Rejected _ => Toast "Error" "Failed to check transaction status"
     | _ => Toast "Database Error" "Failed to check for transaction status"
     end].
Proof.
  intros Ho Hid Htok Hwin Hfault w. subst w. eff.
  rewrite Ho. simpl.
  rewrite (str_truthy_true _ Hid), (str_truthy_true _ Htok). simpl.
  rewrite Hwin. simpl.
  destruct (query_fault n); simpl; [contradiction| |]; now repeat split.
Qed.

End RecoveryMore.

Section Evaluated.
Import IntNumber Samples MoreSamples.

(** Saving another order leaves the row of the first one alone. *)
Lemma save_keeps_other_rows_witness :
  (forall o, orderDetails (props_of other_completed_order) = Some o ->
             orderId o <> "FF-ABC123") /\
  filter (has_key "FF-ABC123")
    (db (snd (run (saveEffect (props_of other_completed_order) env no_faults)
                (store_with_payload foo_payload))))
  = store_with_payload foo_payload.
Proof.
  assert (Hne : forall o, orderDetails (props_of other_completed_order) = Some o
                          -> orderId o <> "FF-ABC123").
  { intros o E. injection E as <-. discriminate. }
  split; [exact Hne|].
  exact (proj2 (save_keeps_other_rows (props_of other_completed_order) env
                  no_faults (store_with_payload foo_payload))
           "FF-ABC123" Hne).
Defined.

Lemma inserted_rows_are_complete_witness :
  let t := new_transaction completed_order env false in
  In (Call (Insert t))
     (store_calls (trace (snd (run (saveEffect (props_of completed_order) env
                                      no_faults) empty_store)))) /\
  get_prop (client_metadata t) "simulation" = JsBool false.
Proof.
  intros t.
  assert (Hin : In (Call (Insert t))
            (store_calls (trace (snd (run (saveEffect (props_of completed_order)
                                             env no_faults) empty_store)))))
    by (right; left; reflexivity).
  split; [exact Hin|].
  exact (proj2 (proj2 (proj2
    (inserted_rows_are_complete (props_of completed_order) env no_faults
       empty_store t Hin)))).
Defined.

(** The order is saved, the client later sees it expired, the check
    brings the saved payload back. *)
Lemma saved_payload_is_recovered_witness :
  let saved :=
    db (snd (run (saveEffect (props_of completed_order) env no_faults)
              empty_store)) in
  qualifies (props_of completed_order) completed_order /\
  order_updates (trace (snd (run (handleExpiredStatus (props_of expired_order)
                                    in_time) saved)))
  = [OnOrderDetailsUpdate
       (spread_status_raw expired_order "completed"
          (rawApiResponse completed_order))].
Proof.
  intros saved.
  assert (Hq : qualifies (props_of completed_order) completed_order)
    by (repeat split; discriminate).
  assert (Htok : token (props_of expired_order) <> EmptyString)
    by discriminate.
  split; [exact Hq|].
  exact (proj2 (saved_payload_is_recovered (props_of completed_order)
                  (props_of expired_order) completed_order expired_order env
                  in_time empty_store Hq eq_refl eq_refl Htok eq_refl eq_refl
                  eq_refl)).
Defined.

(** The recovered order is saved back: the store is what it was. *)
Lemma recovered_order_saves_back_witness :
  truthy (raw_api_response (columns (row_with_payload foo_payload))) = true /\
  count_key "FF-ABC123" (store_with_payload foo_payload) = 1 /\
  db (snd (run (saveEffect (props_of recovered_order) env no_faults)
             (store_with_payload foo_payload)))
  = store_with_payload foo_payload.
Proof.
  assert (Hid : orderId expired_order <> EmptyString) by discriminate.
  assert (Htok : token (props_of expired_order) <> EmptyString)
    by discriminate.
  split; [reflexivity|]. split; [reflexivity|].
  exact (proj2 (proj2 (proj2 (proj2 (proj2 (proj2
    (recovered_order_saves_back (props_of expired_order)
       (props_of recovered_order) expired_order env in_time
       (store_with_payload foo_payload) (row_with_payload foo_payload)
       eq_refl Hid Htok eq_refl eq_refl eq_refl eq_refl eq_refl eq_refl
       eq_refl eq_refl)))))) eq_refl eq_refl).
Defined.

(** No token: the record is in the store and is not looked for. *)
Lemma recovery_needs_id_and_token_witness :
  token props_without_token = EmptyString /\
  count_key "FF-ABC123" (store_with_payload foo_payload) = 1 /\
  fst (run (handleExpiredStatus props_without_token in_time)
         (store_with_payload foo_payload)) = Returned false /\
  store_calls (trace (snd (run (handleExpiredStatus props_without_token
                                  in_time) (store_with_payload foo_payload))))
  = [].
Proof.
  split; [reflexivity|]. split; [reflexivity|].
  destruct (recovery_needs_id_and_token props_without_token in_time
              (store_with_payload foo_payload) (or_intror (or_introl eq_refl)))
    as (Hret & Hcalls & _).
  split; [exact Hret | exact Hcalls].
Defined.

Lemma recovery_query_failure_witness :
  query_fault refused_in_time <> NoFault /\
  toasts (trace (snd (run (handleExpiredStatus (props_of expired_order)
                             refused_in_time) (store_with_payload foo_payload))))
  = [Toast "Database Error" "Failed to check for transaction status"].
Proof.
  assert (Hid : orderId expired_order <> EmptyString) by discriminate.
  assert (Htok : token (props_of expired_order) <> EmptyString)
    by discriminate.
  assert (Hf : query_fault refused_in_time <> NoFault) by discriminate.
  split; [exact Hf|].
  exact (proj2 (proj2 (proj2
    (recovery_query_failure (props_of expired_order) expired_order
       refused_in_time (store_with_payload foo_payload)
       eq_refl Hid Htok eq_refl Hf)))).
Defined.

End Evaluated.
End ReconcilerMore.

(* --------------------------------------------------------------------- *)

Module CurrencyCatalogFacts.
Import BridgeService CurrencyCatalog.

Section CatalogFacts.
Context {number : Type} `{JsNumber number} `{!JsNumberOrder number}.
Variable toLowerCase : string -> string.

Local Abbreviation transform := (transform toLowerCase).
Local Abbreviation transform_all := (transform_all toLowerCase).
Local Abbreviation fetchCurrencies := (fetchCurrencies toLowerCase).
Local Abbreviation Currency := (@Currency number).

Lemma transform_all_some (items : list (JsValue number)) (l : list Currency) :
  transform_all items = Some l ->
  Forall2 (fun x c => transform x = Some c) items l.
Proof.
  revert l. induction items as [|x items IH]; intros l; simpl.
  - intros E. injection E as <-. constructor.
  - destruct (CurrencyCatalog.transform toLowerCase x) as [c|] eqn:T;
      [|discriminate].
    destruct (CurrencyCatalog.transform_all toLowerCase items) as [cs|];
      [|discriminate].
    intros E. injection E as <-. constructor; [exact T | now apply IH].
Qed.

Lemma transform_all_throws (items : list (JsValue number)) (x : JsValue number) :
  In x items -> transform x = None -> transform_all items = None.
Proof.
  induction items as [|y items IH]; simpl; [intros []|].
  intros [->|Hin] T.
  - now rewrite T.
  - destruct (CurrencyCatalog.transform toLowerCase y); [|reflexivity].
    now rewrite (IH Hin T).
Qed.

Lemma backend_catalog_some (reply : Invoke) (l : list Currency) :
  backend_catalog toLowerCase reply = Some l ->
  exists data items,
    reply = InvokeResolved data None /\
    get_prop data "data" = JsArr items /\
    transform_all items = Some l.
Proof.
  destruct reply as [|data [msg|]]; simpl; try discriminate.
  destruct (negb (truthy data)); [discriminate|].
  destruct (is_number (get_prop data "code") 0); [|discriminate].
  destruct (get_prop data "data") as [| | | |items|] eqn:D; try discriminate.
  intros E. now exists data, items.
Qed.

(** X9.  [fetchCurrencies] always returns a list.  Either the backend
    call went through, no notification is shown and the list is the
    backend's array mapped entry by entry, in order; or the 'API Error'
    notification is shown once and the list is the built-in catalog.  One
    entry the mapping cannot take -- a null entry, or a coin that is not a
    string -- discards the whole backend array.  An empty list is
    returned only for an empty backend array. *)
Theorem fetch_falls_back_as_a_whole (reply : Invoke) :
  let r := fetchCurrencies reply in
  ((notices r = [] /\
    exists data items,
      reply = InvokeResolved data None /\
      get_prop data "data" = JsArr items /\
      Forall2 (fun x c => transform x = Some c) items (currencies r))
   \/
   (notices r = [api_error_notice] /\ currencies r = MOCK_CURRENCIES)) /\
  (forall data items x,
     reply = InvokeResolved data None ->
     get_prop data "data" = JsArr items ->
     In x items -> transform x = None ->
     notices r = [api_error_notice] /\ currencies r = MOCK_CURRENCIES) /\
  (currencies r = [] ->
     exists data, reply = InvokeResolved data None /\
                  get_prop data "data" = JsArr []).
Proof.
  intros r. subst r. unfold CurrencyCatalog.fetchCurrencies.
  destruct (backend_catalog toLowerCase reply) as [l|] eqn:B; simpl.
  - destruct (backend_catalog_some reply l B) as (data & items & -> & D & T).
    split; [|split].
    + left. split; [reflexivity|]. exists data, items.
      repeat split; [exact D | now apply transform_all_some].
    + intros data' items' x E D' Hin Tx. exfalso.
      injection E as <-. rewrite D in D'. injection D' as <-.
      rewrite (transform_all_throws items x Hin Tx) in T. discriminate.
    + intros ->. exists data. split; [reflexivity|].
      apply transform_all_some in T. inversion T. subst. exact D.
  - split; [|split].
    + right. now split.
    + intros. now split.
    + discriminate.
Qed.

Lemma flag_survives_default (v : JsValue number) :
  is_number (js_or v (JsNum (num_of_Z 0))) 1 = is_number v 1.
Proof.
  unfold js_or. destruct (truthy v) eqn:T; [reflexivity|].
  simpl. rewrite zero_is_not_one.
  destruct v as [| |n| | |]; simpl in *; try reflexivity.
  destruct (num_eqb n (num_of_Z 1)) eqn:E; [|reflexivity].
  rewrite (one_is_truthy n E) in T. discriminate.
Qed.

Lemma transform_flags (x : JsValue number) (c : Currency) :
  transform x = Some c ->
  available c = is_number (get_prop x "send") 1
                || is_number (get_prop x "recv") 1 /\
  send c = js_or (get_prop x "send") (JsNum (num_of_Z 0)) /\
  recv c = js_or (get_prop x "recv") (JsNum (num_of_Z 0)).
Proof.
  unfold CurrencyCatalog.transform. intros Hx.
  destruct x; try discriminate;
    destruct (lower_coin toLowerCase _); try discriminate;
    injection Hx as <-; (split; [|split]; reflexivity).
Qed.

(** X10.  Whatever the backend does, every entry [fetchCurrencies]
    returns is marked available exactly when its send flag or its recv
    flag is the number 1. *)
Theorem availability_matches_flags (reply : Invoke) (c : Currency) :
  In c (currencies (fetchCurrencies reply)) ->
  available c = true <->
  is_number (send c) 1 = true \/ is_number (recv c) 1 = true.
Proof.
  unfold CurrencyCatalog.fetchCurrencies.
  destruct (backend_catalog toLowerCase reply) as [l|] eqn:B; simpl.
  - destruct (backend_catalog_some reply l B) as (data & items & _ & _ & T).
    apply transform_all_some in T. intros Hin.
    assert (Hx : exists x, transform x = Some c).
    { clear B. induction T as [|x c' items l Hx _ IH]; [destruct Hin|].
      destruct Hin as [->|Hin]; [now exists x | now apply IH]. }
    destruct Hx as [x Hx].
    destruct (transform_flags x c Hx) as (-> & -> & ->).
    rewrite !flag_survives_default. apply orb_true_iff.
  - intros Hin. unfold MOCK_CURRENCIES in Hin. simpl in Hin.
    assert (E : available c = true /\ send c = JsNum (num_of_Z 1)).
    { destruct Hin as [<-|[<-|[<-|[<-|[<-|[]]]]]]; now split. }
    destruct E as [Ea Es]. rewrite Ea, Es. simpl. rewrite one_is_one.
    split; auto.
Qed.

End CatalogFacts.

Section Evaluated.
Import IntNumber IntNumberLaws MoreSamples.

(** A good entry beside a malformed one: the built-in catalog. *)
Lemma fetch_falls_back_as_a_whole_witness :
  In listed_malformed [listed_btc; listed_malformed] /\
  transform lower listed_malformed = None /\
  currencies (fetchCurrencies lower
                (catalog_reply [listed_btc; listed_malformed]))
  = MOCK_CURRENCIES.
Proof.
  assert (Hin : In listed_malformed [listed_btc; listed_malformed])
    by (right; left; reflexivity).
  split; [exact Hin|]. split; [reflexivity|].
  exact (proj2 (proj1 (proj2 (fetch_falls_back_as_a_whole lower
    (catalog_reply [listed_btc; listed_malformed])))
    _ _ _ eq_refl eq_refl Hin eq_refl)).
Defined.

(** An entry that can neither be sent nor received is not available. *)
Lemma availability_matches_flags_witness :
  exists c,
    In c (currencies (fetchCurrencies lower
                        (catalog_reply [listed_btc; listed_frozen]))) /\
    coin c = JsStr "xmr" /\
    available c = false.
Proof.
  destruct (transform lower listed_frozen) as [c|] eqn:T; [|discriminate T].
  exists c.
  assert (Hin : In c (currencies (fetchCurrencies lower
                        (catalog_reply [listed_btc; listed_frozen])))).
  { injection T as <-. right; left; reflexivity. }
  split; [exact Hin|]. split; [now injection T as <-|].
  pose proof (availability_matches_flags lower _ c Hin) as [Hav _].
  destruct (available c) eqn:A; [|reflexivity].
  injection T as <-. destruct (Hav eq_refl) as [E|E]; discriminate E.
Defined.

End Evaluated.
End CurrencyCatalogFacts.

(* --------------------------------------------------------------------- *)

Module BridgeFormViewFacts.
Import BridgeService BridgeFormView.

Section ViewFacts.
Context {number : Type} `{JsNumber number} `{!JsNumberOrder number}.

Local Abbreviation View := (@View number).

Lemma positive_amount_passes (v : View) :
  str_truthy (fromCurrency v) = true ->
  str_truthy (toCurrency v) = true ->
  str_truthy (amount v) = true ->
  num_lt (num_of_Z 0) (parseFloat (amount v)) = true ->
  ~ invalid_input (fromCurrency v) (toCurrency v) (amount v).
Proof.
  intros Hf Ht Ha Hpos [E|[E|[E|E]]].
  - rewrite E in Hf. discriminate.
  - rewrite E in Ht. discriminate.
  - rewrite E in Ha. discriminate.
  - rewrite (lt_excludes_ge _ _ Hpos) in E. discriminate.
Qed.

(** X11.  Whenever the form counts as valid, and whenever its effect
    asks for a quote, [calculatePrice] accepts the same currencies and
    amount: it returns a quote, never null, whatever the backend does. *)
Theorem valid_form_gets_a_quote (v : View) orderType reply now last :
  isFormValid v = true \/ shouldAutoQuote v = true ->
  ~ invalid_input (fromCurrency v) (toCurrency v) (amount v) /\
  exists quote,
    returned (calculatePrice (fromCurrency v) (toCurrency v) (amount v)
                orderType reply now last) = Some quote.
Proof.
  intros Hv.
  assert (Hok : ~ invalid_input (fromCurrency v) (toCurrency v) (amount v)).
  { destruct Hv as [Hv|Hv].
    - unfold isFormValid in Hv. rewrite !andb_true_iff in Hv.
      destruct Hv as [[[[[Hf Ht] Ha] Hpos] _] _].
      now apply positive_amount_passes.
    - unfold shouldAutoQuote in Hv. rewrite !andb_true_iff in Hv.
      destruct Hv as [[[[[Hf Ht] Ha] Hpos] _] _].
      now apply positive_amount_passes. }
  split; [exact Hok|].
  unfold calculatePrice.
  destruct (negb (str_truthy (fromCurrency v))
            || negb (str_truthy (toCurrency v))
            || negb (str_truthy (amount v))
            || num_le (parseFloat (amount v)) (num_of_Z 0)) eqn:G.
  - exfalso. apply Hok. unfold invalid_input.
    rewrite !orb_true_iff, !negb_true_iff in G. unfold str_truthy in G.
    rewrite !negb_false_iff, !String.eqb_eq in G. tauto.
  - destruct (backend_quote reply); simpl; eexists; reflexivity.
Qed.

(** X15.  The rate display follows the price data.  Without price data,
    or with price data that has no [data], both rates are cleared and the
    update time is kept.  Price data whose [data] lacks a side changes
    nothing: the rates shown before stay.  A quote that [calculatePrice]
    returns when the backend fails always sets both rates and the update
    time. *)
Theorem rates_follow_price_data (now : nat) (st : Rates) :
  (forall d,
     truthy d = false \/ truthy (get_prop d "data") = false ->
     rateEffect d now st
     = {| fromExchangeRate := None; toExchangeRate := None;
          lastUpdateTime := lastUpdateTime st |}) /\
  (forall d,
     truthy d = true -> truthy (get_prop d "data") = true ->
     truthy (get_prop (get_prop d "data") "from") = false \/
     truthy (get_prop (get_prop d "data") "to") = false ->
     rateEffect d now st = st) /\
  (forall fromCurrency toCurrency amount orderType reply asked last quote,
     backend_quote reply = None ->
     returned (calculatePrice fromCurrency toCurrency amount orderType reply
                 asked last) = Some quote ->
     exists shown_from shown_to,
       rateEffect quote now st
       = {| fromExchangeRate := Some shown_from;
            toExchangeRate := Some shown_to;
            lastUpdateTime := Some now |}).
Proof.
  split; [|split].
  - intros d [Hd|Hd]; unfold rateEffect; rewrite Hd; simpl;
      [reflexivity | now rewrite andb_false_r].
  - intros d Hd Hdata Hside. unfold rateEffect. rewrite Hd, Hdata. simpl.
    destruct Hside as [E|E]; rewrite E; simpl;
      [reflexivity | now rewrite andb_false_r].
  - intros f t a ot reply asked last quote Hfail Hq.
    unfold calculatePrice in Hq. rewrite Hfail in Hq.
    destruct (negb (str_truthy f) || negb (str_truthy t)
              || negb (str_truthy a)
              || num_le (parseFloat a) (num_of_Z 0)); simpl in Hq;
      [discriminate|].
    injection Hq as <-. eexists. eexists. reflexivity.
Qed.

End ViewFacts.


(** X13.  However the refresh button is clicked, two calls of
    [calculateReceiveAmount] made through it are at least 120000 ms
    apart; and a click later than that after the last call does refresh. *)
Theorem refreshes_are_spaced (clicks : list RefreshClick) :
  refresh_delay_ms = 120000%N /\
  spaced None (refreshes fresh_refresher clicks) /\
  (forall last c rest,
     (last + refresh_delay_ms < at_ms c)%N ->
     refreshes {| manualRefreshEnabled := false;
                  reenable_at := [(last + refresh_delay_ms)%N] |}
               (c :: rest)
     = at_ms c
       :: refreshes {| manualRefreshEnabled := false;
                       reenable_at := [(at_ms c + refresh_delay_ms)%N] |}
                    rest).
Proof.
  split; [reflexivity|].
  assert (Waiting : forall cs last,
            spaced (Some last)
              (refreshes {| manualRefreshEnabled := false;
                            reenable_at := [(last + refresh_delay_ms)%N] |}
                         cs)).
  { induction cs as [|c cs IH]; intros last; simpl; [exact I|].
    unfold fire_timers. simpl.
    destruct (due c (last + refresh_delay_ms)%N) eqn:D; simpl.
    - split; [|apply IH].
      unfold due in D. apply orb_true_iff in D. destruct D as [D|D].
      + apply N.ltb_lt in D. lia.
      + apply andb_true_iff in D. destruct D as [D _].
        apply N.eqb_eq in D. lia.
    - apply IH. }
  split.
  - destruct clicks as [|c cs]; simpl; [exact I|].
    split; [exact I | apply Waiting].
  - intros last c rest Hlate. simpl. unfold fire_timers. simpl.
    assert (D : due c (last + refresh_delay_ms)%N = true).
    { unfold due. apply orb_true_iff. left. now apply N.ltb_lt. }
    rewrite D. simpl. reflexivity.
Qed.

Section Evaluated.
Import IntNumber IntNumberLaws MoreSamples.

Lemma valid_form_gets_a_quote_witness :
  isFormValid ready_view = true /\
  exists quote,
    returned (calculatePrice "BTC" "ETH" "2" Fixed InvokeRejected
                (Some 1700000000000%Z) None) = Some quote.
Proof.
  split; [reflexivity|].
  exact (proj2 (valid_form_gets_a_quote ready_view Fixed InvokeRejected
                  (Some 1700000000000%Z) None (or_introl eq_refl))).
Defined.

Lemma rates_follow_price_data_witness :
  let empty := {| fromExchangeRate := None; toExchangeRate := None;
                  lastUpdateTime := None |} in
  let quote := mockResponse "BTC" "ETH" "2" (Some 1700000000000%Z) in
  backend_quote (@InvokeRejected (option Z)) = None /\
  fromExchangeRate (rateEffect quote 5 empty)
  = Some {| rate := "65000.00000000"; usdValue := "130000.00" |}.
Proof.
  intros empty quote. split; [reflexivity|].
  assert (Hq : returned (calculatePrice "BTC" "ETH" "2" Fixed InvokeRejected
                           (Some 1700000000000%Z) None) = Some quote)
    by (vm_compute; reflexivity).
  destruct (proj2 (proj2 (rates_follow_price_data 5 empty))
              "BTC" "ETH" "2" Fixed InvokeRejected
              (Some 1700000000000%Z) None quote eq_refl Hq)
    as (shown_from & shown_to & E).
  rewrite E. vm_compute in E. injection E as <- _. reflexivity.
Defined.

(** Clicks at 1 s, 61 s and 121 s: the second one is ignored. *)
Lemma refreshes_are_spaced_witness :
  refreshes fresh_refresher three_clicks = [1000%N; 121000%N] /\
  spaced None (refreshes fresh_refresher three_clicks).
Proof.
  split; [reflexivity|].
  exact (proj1 (proj2 (refreshes_are_spaced three_clicks))).
Defined.


End Evaluated.
End BridgeFormViewFacts.

(* --------------------------------------------------------------------- *)

Module SwapAndAddressFacts.
Import BridgeForm BridgeFormFacts DestinationAddressInput.

Lemma swap_allowed (catalog : list Currency) (st : Form) :
  can_send catalog (toCurrency st) ->
  can_receive catalog (fromCurrency st) ->
  handleSwapCurrencies catalog st
  = {| fromCurrency := toCurrency st;
       toCurrency := fromCurrency st;
       amount := EmptyString |}.
Proof.
  intros Hs Hr. unfold handleSwapCurrencies.
  apply find_send_spec in Hs. destruct Hs as [a ->].
  apply find_recv_spec in Hr. destruct Hr as [b ->]. reflexivity.
Qed.

Lemma swap_refused (catalog : list Currency) (st : Form) :
  ~ (can_send catalog (toCurrency st) /\
     can_receive catalog (fromCurrency st)) ->
  handleSwapCurrencies catalog st = st.
Proof.
  intros Hno. unfold handleSwapCurrencies.
  destruct (find _ catalog) as [a|] eqn:Fa; [|reflexivity].
  destruct (find (fun c => (code c =? fromCurrency st) && (recv c =? 1)%Z)
              catalog) as [b|] eqn:Fb; [|reflexivity].
  exfalso. apply Hno. split.
  - apply find_send_spec. now exists a.
  - apply find_recv_spec. now exists b.
Qed.

(** X12.  After a swap that went through, a second swap puts both
    currencies back (the amount stays empty) when the catalog also lists
    the original fromCurrency with send = 1 and the original toCurrency
    with recv = 1; when it does not, the second swap is refused and the
    form stays swapped. *)
Theorem swap_back (catalog : list Currency) (st : Form) :
  can_send catalog (toCurrency st) ->
  can_receive catalog (fromCurrency st) ->
  let back := handleSwapCurrencies catalog (handleSwapCurrencies catalog st) in
  (can_send catalog (fromCurrency st) /\
   can_receive catalog (toCurrency st) ->
   back = {| fromCurrency := fromCurrency st;
             toCurrency := toCurrency st;
             amount := EmptyString |}) /\
  (~ (can_send catalog (fromCurrency st) /\
      can_receive catalog (toCurrency st)) ->
   back = {| fromCurrency := toCurrency st;
             toCurrency := fromCurrency st;
             amount := EmptyString |}).
Proof.
  intros Hs Hr back. subst back. rewrite (swap_allowed catalog st Hs Hr).
  split.
  - intros [Hs' Hr']. now rewrite swap_allowed.
  - intros Hno. now rewrite swap_refused.
Qed.

(** X14.  As the form renders it, the address input never names a
    network: whatever the catalog, the currency and the address, its
    label is the generic one.  Its placeholder names the receiving
    currency whenever there is one, and its border is styled only with
    the colour of a catalog entry that has the currency's code. *)
Theorem form_label_is_generic (catalog : list Currency)
  (toCurrency destinationAddress : string) :
  let p := rendered_by_form catalog toCurrency destinationAddress in
  networkLabel p = generic_label /\
  (toCurrency <> EmptyString ->
     placeholder p = ("Enter " ++ toCurrency ++ " wallet address")%string) /\
  (toCurrency = EmptyString ->
     placeholder p = "Enter receiving wallet address") /\
  (borderStyle p = [] \/
   exists c, In c catalog /\ code c = toCurrency /\
             borderStyle p = [("borderColor", color c); ("borderWidth", "2px")]).
Proof.
  intros p. subst p. split; [reflexivity|]. split; [|split].
  - intros Hne. unfold placeholder. simpl. unfold str_truthy.
    now destruct (String.eqb_spec toCurrency EmptyString).
  - intros ->. reflexivity.
  - unfold borderStyle, rendered_by_form, toCurrencyObj. simpl.
    destruct (find (fun c => code c =? toCurrency) catalog) as [c|] eqn:F;
      simpl; [|now left].
    destruct (str_truthy (color c)); [|now left].
    right. exists c. apply find_some in F. destruct F as [Hin Hc].
    apply String.eqb_eq in Hc. now repeat split.
Qed.

Section Evaluated.
Import Samples MoreSamples.

(** A swap that cannot be taken back: the asset moved to the receiving
    side cannot be sent. *)
Lemma swap_back_witness :
  let catalog := [recv_only; sends_only] in
  let st := {| fromCurrency := "AAA"; toCurrency := "BBB"; amount := "1" |} in
  (can_send catalog "BBB" /\ can_receive catalog "AAA") /\
  handleSwapCurrencies catalog (handleSwapCurrencies catalog st)
  = {| fromCurrency := "BBB"; toCurrency := "AAA"; amount := EmptyString |}.
Proof.
  intros catalog st.
  assert (Hs : can_send catalog (toCurrency st)).
  { exists sends_only. split; [right; left; reflexivity | split; reflexivity]. }
  assert (Hr : can_receive catalog (fromCurrency st)).
  { exists recv_only. split; [left; reflexivity | split; reflexivity]. }
  split; [now split|].
  apply (proj2 (swap_back catalog st Hs Hr)).
  intros [(e & Hin & Hc & Hsend) _].
  destruct Hin as [<-|[<-|[]]]; discriminate.
Defined.

Lemma form_label_is_generic_witness :
  networkLabel (rendered_by_form Samples.catalog "ETH" "0x742d35Cc")
    = generic_label /\
  placeholder (rendered_by_form Samples.catalog "ETH" "0x742d35Cc")
    = "Enter ETH wallet address".
Proof.
  destruct (form_label_is_generic Samples.catalog "ETH" "0x742d35Cc")
    as (Hl & Hp & _).
  split; [exact Hl|]. apply Hp. discriminate.
Defined.

End Evaluated.
End SwapAndAddressFacts.
